(** * A shallow embedding of [projeto.py]: accounts, transactions, history.

    The banking core of the program (classes [Account], [CheckingAccount],
    [TransactionHistory], [Withdrawal], [Deposit], [IndividualCustomer] and
    the function [validate_date]) is translated method by method.

    Modelling decisions:
    - the methods do not fix the type of an amount, and they are read
      twice.  The first reading takes amounts and balances as Python ints,
      with exact arithmetic, here unbounded integers [Z] (the initial
      balance [0] and the defaults [500] and [3] are Python ints).  The
      second, in the module [F64], takes them as Python floats, here
      Rocq's primitive binary64 floats, with rounding, infinities and nan.
      The comparisons and the control flow are the same in both; what the
      arithmetic gives is not, and the properties that depend on it are
      stated for each reading;
    - a method is a function from the receiver to a return value, the
      receiver after the call and the lines it printed;
    - [datetime.now()] is an input of [add_transaction]: the formatted
      timestamp is passed in by the caller;
    - an object reference that the modelled methods never follow (the
      account's customer) is an opaque address. *)

From Stdlib Require Import ZArith List String Ascii Bool Lia DecimalString.
From Stdlib Require Import Floats.
Import ListNotations.

Local Open Scope Z_scope.
Local Open Scope string_scope.

(** ** Methods: state, return value and console output *)

Module Method.

Definition M (S A : Type) : Type := S -> A * S * list string.

Definition ret {S A} (x : A) : M S A := fun s => (x, s, []).

Definition bind {S A B} (m : M S A) (k : A -> M S B) : M S B :=
  fun s =>
    let '(x, s1, o1) := m s in
    let '(y, s2, o2) := k x s1 in
    (y, s2, (o1 ++ o2)%list).

Definition get {S} : M S S := fun s => (s, s, []).
Definition put {S} (s' : S) : M S unit := fun _ => (tt, s', []).
Definition print {S} (line : string) : M S unit := fun s => (tt, s, [line]).

(** Run a method of a component [T] of the receiver (a call through
    [super()] or on an owned object). *)
Definition zoom {S T A} (proj : S -> T) (upd : S -> T -> S) (m : M T A) : M S A :=
  fun s => let '(x, t', o) := m (proj s) in (x, upd s t', o).

Definition result {S A} (r : A * S * list string) : A := fst (fst r).
Definition after {S A} (r : A * S * list string) : S := snd (fst r).
Definition output {S A} (r : A * S * list string) : list string := snd r.

End Method.

Import Method.

Notation "x <- m ;; k" := (bind m (fun x => k))
  (at level 61, m at next level, right associativity).
Notation "m ;;; k" := (bind m (fun _ => k))
  (at level 61, right associativity).

(** The newline that opens every message of the program. *)
Definition nl : string := String (ascii_of_nat 10) EmptyString.

(** ** TransactionHistory *)

(** One dict appended by [add_transaction]: keys "type", "amount", "date". *)
Record Entry : Type := mkEntry {
  e_type : string;
  e_amount : Z;
  e_date : string
}.

Record TransactionHistory : Type := mkHistory {
  transactions : list Entry
}.

Definition TransactionHistory_init : TransactionHistory :=
  {| transactions := [] |}.

(** ** Transaction, Withdrawal, Deposit *)

Inductive Transaction : Type :=
| Withdrawal (_amount : Z)
| Deposit (_amount : Z).

Definition amount (t : Transaction) : Z :=
  match t with
  | Withdrawal a => a
  | Deposit a => a
  end.

(** [transaction.__class__.__name__] *)
Definition class_name (t : Transaction) : string :=
  match t with
  | Withdrawal _ => "Withdrawal"
  | Deposit _ => "Deposit"
  end.

(** [Withdrawal.__name__] *)
Definition Withdrawal_name : string := "Withdrawal".

(** [TransactionHistory.add_transaction]; [now] is
    [datetime.now().strftime("%d-%m-%Y %H:%M:%S")]. *)
Definition add_transaction (transaction : Transaction) (now : string)
  : M TransactionHistory unit :=
  self <- get ;;
  put {| transactions :=
           (transactions self ++
            [ {| e_type := class_name transaction;
                 e_amount := amount transaction;
                 e_date := now |} ])%list |}.

(** ** Account *)

(** Address of a [Customer] object. *)
Definition CustomerRef : Type := nat.

Record Account : Type := mkAccount {
  _balance : Z;
  _number : Z;
  _branch : string;
  _customer : CustomerRef;
  _history : TransactionHistory
}.

Definition Account_init (number : Z) (customer : CustomerRef) : Account :=
  {| _balance := 0;
     _number := number;
     _branch := "0001";
     _customer := customer;
     _history := TransactionHistory_init |}.

(** The read-only properties of [Account]. *)
Definition balance (self : Account) : Z := _balance self.
Definition number (self : Account) : Z := _number self.
Definition branch (self : Account) : string := _branch self.
Definition customer (self : Account) : CustomerRef := _customer self.
Definition history (self : Account) : TransactionHistory := _history self.

(** Assignment to [self._balance]. *)
Definition set_balance (self : Account) (b : Z) : Account :=
  {| _balance := b;
     _number := _number self;
     _branch := _branch self;
     _customer := _customer self;
     _history := _history self |}.

(** The history object is owned by the account: a mutation of it is seen
    through [self._history]. *)
Definition set_history (self : Account) (h : TransactionHistory) : Account :=
  {| _balance := _balance self;
     _number := _number self;
     _branch := _branch self;
     _customer := _customer self;
     _history := h |}.

Definition msg_insufficient_funds : string :=
  nl ++ "@@@ Operation failed! Insufficient funds. @@@".
Definition msg_withdrawal_ok : string :=
  nl ++ "=== Withdrawal successful! ===".
Definition msg_invalid_amount : string :=
  nl ++ "@@@ Operation failed! Invalid amount. @@@".
Definition msg_deposit_ok : string :=
  nl ++ "=== Deposit successful! ===".
Definition msg_exceeds_limit : string :=
  nl ++ "@@@ Operation failed! Withdrawal amount exceeds the limit. @@@".
Definition msg_max_withdrawals : string :=
  nl ++ "@@@ Operation failed! Maximum number of withdrawals exceeded. @@@".

(** [Account.withdraw] *)
Definition Account_withdraw (amount : Z) : M Account bool :=
  self <- get ;;
  let balance := balance self in
  let insufficient_funds := amount >? balance in
  if insufficient_funds then
    print msg_insufficient_funds ;;;
    ret false
  else if amount >? 0 then
    self <- get ;;
    put (set_balance self (_balance self - amount)) ;;;
    print msg_withdrawal_ok ;;;
    ret true
  else
    print msg_invalid_amount ;;;
    ret false.

(** [Account.deposit] *)
Definition Account_deposit (amount : Z) : M Account bool :=
  if amount >? 0 then
    self <- get ;;
    put (set_balance self (_balance self + amount)) ;;;
    print msg_deposit_ok ;;;
    ret true
  else
    print msg_invalid_amount ;;;
    ret false.

(** ** CheckingAccount *)

(** The subclass adds two attributes to the inherited ones. *)
Record CheckingAccount : Type := mkChecking {
  base : Account;
  _limit : Z;
  _withdrawal_limit : Z
}.

(** [CheckingAccount.__init__]; [None] stands for an omitted keyword
    argument, which takes the default written in the signature. *)
Definition CheckingAccount_init (number : Z) (customer : CustomerRef)
  (limit withdrawal_limit : option Z) : CheckingAccount :=
  {| base := Account_init number customer;
     _limit := match limit with Some l => l | None => 500 end;
     _withdrawal_limit :=
       match withdrawal_limit with Some w => w | None => 3 end |}.

Definition set_base (self : CheckingAccount) (a : Account) : CheckingAccount :=
  {| base := a;
     _limit := _limit self;
     _withdrawal_limit := _withdrawal_limit self |}.

(** A call [super().m(...)] runs the method of [Account] on the inherited
    part of the receiver. *)
Definition super {A} (m : M Account A) : M CheckingAccount A :=
  zoom base set_base m.

(** The list comprehension of [CheckingAccount.withdraw]. *)
Definition withdrawal_entries (h : TransactionHistory) : list Entry :=
  filter (fun transaction => String.eqb (e_type transaction) Withdrawal_name)
         (transactions h).

(** [CheckingAccount.withdraw] *)
Definition CheckingAccount_withdraw (amount : Z) : M CheckingAccount bool :=
  self <- get ;;
  let number_withdrawals :=
    Z.of_nat (List.length (withdrawal_entries (history (base self)))) in
  let exceeded_limit := amount >? _limit self in
  let exceeded_withdrawals := number_withdrawals >=? _withdrawal_limit self in
  if exceeded_limit then
    print msg_exceeds_limit ;;;
    ret false
  else if exceeded_withdrawals then
    print msg_max_withdrawals ;;;
    ret false
  else
    super (Account_withdraw amount).

(** ** Dynamic dispatch on the class of the account *)

Inductive AnyAccount : Type :=
| IsAccount (a : Account)
| IsChecking (c : CheckingAccount).

Definition as_account (o : AnyAccount) : Account :=
  match o with
  | IsAccount a => a
  | IsChecking c => base c
  end.

Definition with_account (o : AnyAccount) (a : Account) : AnyAccount :=
  match o with
  | IsAccount _ => IsAccount a
  | IsChecking c => IsChecking (set_base c a)
  end.

(** [account.withdraw(amount)]: the override when the object is a
    [CheckingAccount]. *)
Definition withdraw (amount : Z) : M AnyAccount bool :=
  fun account =>
    match account with
    | IsAccount a =>
        let '(r, a', o) := Account_withdraw amount a in (r, IsAccount a', o)
    | IsChecking c =>
        let '(r, c', o) := CheckingAccount_withdraw amount c in
        (r, IsChecking c', o)
    end.

(** [account.deposit(amount)]: [CheckingAccount] inherits [Account.deposit]. *)
Definition deposit (amount : Z) : M AnyAccount bool :=
  zoom as_account with_account (Account_deposit amount).

(** [account.history.add_transaction(transaction)] *)
Definition history_add_transaction (transaction : Transaction) (now : string)
  : M AnyAccount unit :=
  zoom as_account with_account
       (zoom history set_history (add_transaction transaction now)).

(** [Withdrawal.register] and [Deposit.register]; [now] is the clock value
    that [add_transaction] reads when it is called. *)
Definition register (self : Transaction) (now : string) : M AnyAccount unit :=
  match self with
  | Withdrawal _ =>
      transaction_success <- withdraw (amount self) ;;
      if (transaction_success : bool)
      then history_add_transaction self now
      else ret tt
  | Deposit _ =>
      transaction_success <- deposit (amount self) ;;
      if (transaction_success : bool)
      then history_add_transaction self now
      else ret tt
  end.

(** [Customer.make_transaction] *)
Definition make_transaction (account : AnyAccount) (transaction : Transaction)
  (now : string) : unit * AnyAccount * list string :=
  register transaction now account.

(** The number of "Withdrawal" entries of an account's history. *)
Definition count_withdrawals (o : AnyAccount) : nat :=
  List.length (withdrawal_entries (history (as_account o))).

(** Every attribute of the account except the balance. *)
Definition same_but_balance (x y : Account) : Prop :=
  number y = number x /\ branch y = branch x /\
  customer y = customer x /\ history y = history x.

(** The two attributes that only a checking account has. *)
Definition limits (o : AnyAccount) : option (Z * Z) :=
  match o with
  | IsAccount _ => None
  | IsChecking c => Some (_limit c, _withdrawal_limit c)
  end.

(** ** Sequences of calls on one account *)

(** The account operation that [register] invokes for a transaction. *)
Definition account_operation (t : Transaction) : M AnyAccount bool :=
  match t with
  | Withdrawal _ => withdraw (amount t)
  | Deposit _ => deposit (amount t)
  end.

(** The entry that [add_transaction] builds for a transaction. *)
Definition entry_of (t : Transaction) (now : string) : Entry :=
  {| e_type := class_name t; e_amount := amount t; e_date := now |}.

(** What a client can do to an account: call its two operations directly,
    or apply a transaction to it at some clock value. *)
Inductive Call : Type :=
| CallDeposit (a : Z)
| CallWithdraw (a : Z)
| CallRegister (t : Transaction) (now : string).

Definition step (o : AnyAccount) (c : Call) : AnyAccount :=
  match c with
  | CallDeposit a => after (deposit a o)
  | CallWithdraw a => after (withdraw a o)
  | CallRegister t now => after (register t now o)
  end.

Definition run (cs : list Call) (o : AnyAccount) : AnyAccount :=
  fold_left step cs o.

Definition is_withdrawal (t : Transaction) : bool :=
  match t with
  | Withdrawal _ => true
  | Deposit _ => false
  end.

(** Applying transactions one after the other, each at its clock value. *)
Fixpoint apply_all (ts : list (Transaction * string)) (o : AnyAccount)
  : AnyAccount :=
  match ts with
  | [] => o
  | (t, now) :: rest => apply_all rest (after (register t now o))
  end.

(** How many of the applied withdrawals had their [withdraw] call report
    success ([k]) and how many had it report failure ([j]), each judged on
    the account as it was when its turn came. *)
Fixpoint withdrawals_succeeded (ts : list (Transaction * string))
  (o : AnyAccount) : nat :=
  match ts with
  | [] => O
  | (t, now) :: rest =>
      ((if is_withdrawal t && result (account_operation t o) then 1 else 0)
       + withdrawals_succeeded rest (after (register t now o)))%nat
  end.

Fixpoint withdrawals_failed (ts : list (Transaction * string))
  (o : AnyAccount) : nat :=
  match ts with
  | [] => O
  | (t, now) :: rest =>
      ((if is_withdrawal t && negb (result (account_operation t o))
        then 1 else 0)
       + withdrawals_failed rest (after (register t now o)))%nat
  end.

(** The same history with every timestamp rewritten by [f]. *)
Definition restamp (f : string -> string) (h : TransactionHistory)
  : TransactionHistory :=
  {| transactions :=
       map (fun e => {| e_type := e_type e;
                        e_amount := e_amount e;
                        e_date := f (e_date e) |})
           (transactions h) |}.

(** ** validate_date and IndividualCustomer *)

(** The call [datetime.strptime(date_str, "%d-%m-%Y")] belongs to the Python
    standard library.  It is modelled as CPython's [_strptime] runs it on
    ASCII text: the format compiles to the regular expression

      (?P<d>3[0-1]|[1-2]\d|0[1-9]|[1-9]| [1-9])-(?P<m>1[0-2]|0[1-9]|[1-9])-(?P<Y>\d\d\d\d)

    which is matched at the start of the text; [ValueError] is raised when
    there is no match, when text remains after the match, and when
    [date(year, month, day)] rejects the numbers read from the groups. *)

Inductive regex : Type :=
| Chr (c : ascii)
| Rng (lo hi : ascii)
| Cat (r1 r2 : regex)
| Alt (r1 r2 : regex).

Definition in_range (lo hi c : ascii) : bool :=
  (N_of_ascii lo <=? N_of_ascii c)%N && (N_of_ascii c <=? N_of_ascii hi)%N.

(** Every way [r] matches a prefix of the text, as (matched, rest), in the
    order in which a backtracking matcher tries them. *)
Fixpoint matches (r : regex) (s : list ascii)
  : list (list ascii * list ascii) :=
  match r with
  | Chr c =>
      match s with
      | x :: rest => if Ascii.eqb x c then [([x], rest)] else []
      | [] => []
      end
  | Rng lo hi =>
      match s with
      | x :: rest => if in_range lo hi x then [([x], rest)] else []
      | [] => []
      end
  | Cat r1 r2 =>
      flat_map (fun m1 =>
                  map (fun m2 => ((fst m1 ++ fst m2)%list, snd m2))
                      (matches r2 (snd m1)))
               (matches r1 s)
  | Alt r1 r2 => (matches r1 s ++ matches r2 s)%list
  end.

Definition re_digit : regex := Rng "0" "9".

Definition re_d : regex :=
  Alt (Cat (Chr "3") (Rng "0" "1"))
 (Alt (Cat (Rng "1" "2") re_digit)
 (Alt (Cat (Chr "0") (Rng "1" "9"))
 (Alt (Rng "1" "9")
      (Cat (Chr " ") (Rng "1" "9"))))).

Definition re_m : regex :=
  Alt (Cat (Chr "1") (Rng "0" "2"))
 (Alt (Cat (Chr "0") (Rng "1" "9"))
      (Rng "1" "9")).

Definition re_Y : regex :=
  Cat re_digit (Cat re_digit (Cat re_digit re_digit)).

(** The groups of one match of the whole expression and the text left. *)
Record found : Type := mkFound {
  group_d : list ascii;
  group_m : list ascii;
  group_Y : list ascii;
  unconverted : list ascii
}.

(** The first match of the format's expression, if any. *)
Definition format_regex_match (s : list ascii) : option found :=
  hd_error
    (flat_map (fun d =>
     flat_map (fun sep1 =>
     flat_map (fun m =>
     flat_map (fun sep2 =>
     map (fun y => mkFound (fst d) (fst m) (fst y) (snd y))
         (matches re_Y (snd sep2)))
         (matches (Chr "-") (snd m)))
         (matches re_m (snd sep1)))
         (matches (Chr "-") (snd d)))
         (matches re_d s)).

(** [int(text)] on the text of a group: blanks around the digits are
    dropped and the digits are read in base ten. *)
Definition int_ (text : list ascii) : Z :=
  fold_left (fun acc c =>
               if Ascii.eqb c " " then acc
               else 10 * acc + (Z.of_N (N_of_ascii c) - 48))
            text 0.

Definition _is_leap (year : Z) : bool :=
  ((year mod 4 =? 0) && (negb (year mod 100 =? 0) || (year mod 400 =? 0)))%Z.

Definition _days_in_month (year month : Z) : Z :=
  if (month =? 2)%Z && _is_leap year then 29
  else nth (Z.to_nat month) [-1; 31; 28; 31; 30; 31; 30; 31; 31; 30; 31; 30; 31] 0.

(** The test that [date(year, month, day)] makes on its arguments. *)
Definition _check_date_fields (year month day : Z) : bool :=
  ((1 <=? year) && (year <=? 9999) &&
   (1 <=? month) && (month <=? 12) &&
   (1 <=? day) && (day <=? _days_in_month year month))%Z.

(** [datetime.strptime(date_str, "%d-%m-%Y")]: the date read, or [None] for
    [ValueError]. *)
Definition strptime (date_str : string) : option (Z * Z * Z) :=
  match format_regex_match (list_ascii_of_string date_str) with
  | None => None
  | Some f =>
      match unconverted f with
      | _ :: _ => None
      | [] =>
          let year := int_ (group_Y f) in
          let month := int_ (group_m f) in
          let day := int_ (group_d f) in
          if _check_date_fields year month day
          then Some (year, month, day)
          else None
      end
  end.

Inductive Exception : Type :=
| InvalidDateException (message : string).

(** [validate_date]: [inl] is a raised exception. *)
Definition validate_date (date_str : string) : Exception + unit :=
  match strptime date_str with
  | Some _ => inr tt
  | None =>
      inl (InvalidDateException "Invalid date. Use the format dd-mm-yyyy.")
  end.

(** Address of an [Account] object. *)
Definition AccountRef : Type := nat.

Record IndividualCustomer : Type := mkIndividualCustomer {
  address : string;
  accounts : list AccountRef;
  name : string;
  date_of_birth : string;
  ssn : string
}.

(** [IndividualCustomer.__init__]: the exception of [validate_date] leaves
    the constructor. *)
Definition IndividualCustomer_init (name date_of_birth ssn address : string)
  : Exception + IndividualCustomer :=
  match validate_date date_of_birth with
  | inl e => inl e
  | inr _ =>
      inr {| address := address;
             accounts := [];
             name := name;
             date_of_birth := date_of_birth;
             ssn := ssn |}
  end.

(** The format as the documentation words it: two digits for the day, a
    hyphen, two digits for the month, a hyphen, four digits for the year,
    and the three numbers a date of the calendar. *)
Definition is_digit (c : ascii) : bool := in_range "0" "9" c.

Definition dd_mm_yyyy (date_str : string) : bool :=
  match list_ascii_of_string date_str with
  | [d1; d2; s1; m1; m2; s2; y1; y2; y3; y4] =>
      is_digit d1 && is_digit d2 && Ascii.eqb s1 "-" &&
      is_digit m1 && is_digit m2 && Ascii.eqb s2 "-" &&
      is_digit y1 && is_digit y2 && is_digit y3 && is_digit y4 &&
      _check_date_fields (int_ [y1; y2; y3; y4]) (int_ [m1; m2]) (int_ [d1; d2])
  | _ => false
  end.

(** ** What the history says *)

(** The amount of an entry, counted as money in for a "Deposit" and as money
    out for a "Withdrawal". *)
Definition signed_amount (e : Entry) : Z :=
  if String.eqb (e_type e) "Deposit" then e_amount e
  else if String.eqb (e_type e) Withdrawal_name then - e_amount e
  else 0.

(** Deposits minus withdrawals over the whole history. *)
Definition ledger (h : TransactionHistory) : Z :=
  fold_right Z.add 0 (map signed_amount (transactions h)).

(** A checking account whose recorded withdrawals have reached its
    maximum. *)
Definition limit_reached (o : AnyAccount) : Prop :=
  match o with
  | IsAccount _ => False
  | IsChecking c =>
      _withdrawal_limit c <= Z.of_nat (count_withdrawals (IsChecking c))
  end.

(** Every recorded amount is above zero. *)
Definition amounts_positive (o : AnyAccount) : Prop :=
  Forall (fun e => 0 < e_amount e) (transactions (history (as_account o))).

(** The history of a checking account respects its two limits. *)
Definition within_limits (L M : Z) (o : AnyAccount) : Prop :=
  limits o = Some (L, M) /\
  Z.of_nat (count_withdrawals o) <= Z.max 0 M /\
  Forall (fun e => e_type e = Withdrawal_name -> e_amount e <= L)
         (transactions (history (as_account o))).

(** * The same methods on floats *)

(** The methods do not fix the type of an amount.  The definitions above
    read them on exact numbers, as Python computes with [int] amounts.  The
    menu passes [float(input(...))], a binary64 number: the module [F64]
    reads the same methods on Rocq's primitive floats, which are binary64
    with the arithmetic and the comparisons of Python's [float] (rounding
    to nearest even, infinities, nan).  The balance, an amount and the
    ceiling are floats; the initial balance [0] and the default ceiling
    [500] are the floats of the same value, with which Python's ints
    compare and add as such; the maximum number of withdrawals stays an
    int. *)

Module F64.

Record Entry : Type := mkEntry {
  e_type : string;
  e_amount : float;
  e_date : string
}.

Record TransactionHistory : Type := mkHistory {
  transactions : list Entry
}.

Definition TransactionHistory_init : TransactionHistory :=
  {| transactions := [] |}.

Inductive Transaction : Type :=
| Withdrawal (_amount : float)
| Deposit (_amount : float).

Definition amount (t : Transaction) : float :=
  match t with
  | Withdrawal a => a
  | Deposit a => a
  end.

Definition class_name (t : Transaction) : string :=
  match t with
  | Withdrawal _ => "Withdrawal"
  | Deposit _ => "Deposit"
  end.

(** [TransactionHistory.add_transaction] *)
Definition add_transaction (transaction : Transaction) (now : string)
  : M TransactionHistory unit :=
  self <- get ;;
  put {| transactions :=
           (transactions self ++
            [ {| e_type := class_name transaction;
                 e_amount := amount transaction;
                 e_date := now |} ])%list |}.

Record Account : Type := mkAccount {
  _balance : float;
  _number : Z;
  _branch : string;
  _customer : CustomerRef;
  _history : TransactionHistory
}.

Definition Account_init (number : Z) (customer : CustomerRef) : Account :=
  {| _balance := 0%float;
     _number := number;
     _branch := "0001";
     _customer := customer;
     _history := TransactionHistory_init |}.

Definition balance (self : Account) : float := _balance self.
Definition number (self : Account) : Z := _number self.
Definition branch (self : Account) : string := _branch self.
Definition customer (self : Account) : CustomerRef := _customer self.
Definition history (self : Account) : TransactionHistory := _history self.

Definition set_balance (self : Account) (b : float) : Account :=
  {| _balance := b;
     _number := _number self;
     _branch := _branch self;
     _customer := _customer self;
     _history := _history self |}.

Definition set_history (self : Account) (h : TransactionHistory) : Account :=
  {| _balance := _balance self;
     _number := _number self;
     _branch := _branch self;
     _customer := _customer self;
     _history := h |}.

(** [x > y] on floats: false when either is nan. *)
Definition gt (x y : float) : bool := PrimFloat.ltb y x.

(** [Account.withdraw] *)
Definition Account_withdraw (amount : float) : M Account bool :=
  self <- get ;;
  let balance := balance self in
  let insufficient_funds := gt amount balance in
  if insufficient_funds then
    print msg_insufficient_funds ;;;
    ret false
  else if gt amount 0 then
    self <- get ;;
    put (set_balance self (PrimFloat.sub (_balance self) amount)) ;;;
    print msg_withdrawal_ok ;;;
    ret true
  else
    print msg_invalid_amount ;;;
    ret false.

(** [Account.deposit] *)
Definition Account_deposit (amount : float) : M Account bool :=
  if gt amount 0 then
    self <- get ;;
    put (set_balance self (PrimFloat.add (_balance self) amount)) ;;;
    print msg_deposit_ok ;;;
    ret true
  else
    print msg_invalid_amount ;;;
    ret false.

Record CheckingAccount : Type := mkChecking {
  base : Account;
  _limit : float;
  _withdrawal_limit : Z
}.

(** [CheckingAccount.__init__] *)
Definition CheckingAccount_init (number : Z) (customer : CustomerRef)
  (limit : option float) (withdrawal_limit : option Z) : CheckingAccount :=
  {| base := Account_init number customer;
     _limit := match limit with Some l => l | None => 500%float end;
     _withdrawal_limit :=
       match withdrawal_limit with Some w => w | None => 3%Z end |}.

Definition set_base (self : CheckingAccount) (a : Account) : CheckingAccount :=
  {| base := a;
     _limit := _limit self;
     _withdrawal_limit := _withdrawal_limit self |}.

Definition super {A} (m : M Account A) : M CheckingAccount A :=
  zoom base set_base m.

Definition withdrawal_entries (h : TransactionHistory) : list Entry :=
  filter (fun transaction => String.eqb (e_type transaction) Withdrawal_name)
         (transactions h).

(** [CheckingAccount.withdraw] *)
Definition CheckingAccount_withdraw (amount : float) : M CheckingAccount bool :=
  self <- get ;;
  let number_withdrawals :=
    Z.of_nat (List.length (withdrawal_entries (history (base self)))) in
  let exceeded_limit := gt amount (_limit self) in
  let exceeded_withdrawals :=
    (number_withdrawals >=? _withdrawal_limit self)%Z in
  if exceeded_limit then
    print msg_exceeds_limit ;;;
    ret false
  else if exceeded_withdrawals then
    print msg_max_withdrawals ;;;
    ret false
  else
    super (Account_withdraw amount).

Inductive AnyAccount : Type :=
| IsAccount (a : Account)
| IsChecking (c : CheckingAccount).

Definition as_account (o : AnyAccount) : Account :=
  match o with
  | IsAccount a => a
  | IsChecking c => base c
  end.

Definition with_account (o : AnyAccount) (a : Account) : AnyAccount :=
  match o with
  | IsAccount _ => IsAccount a
  | IsChecking c => IsChecking (set_base c a)
  end.

(** [account.withdraw(amount)] *)
Definition withdraw (amount : float) : M AnyAccount bool :=
  fun account =>
    match account with
    | IsAccount a =>
        let '(r, a', o) := Account_withdraw amount a in (r, IsAccount a', o)
    | IsChecking c =>
        let '(r, c', o) := CheckingAccount_withdraw amount c in
        (r, IsChecking c', o)
    end.

(** [account.deposit(amount)] *)
Definition deposit (amount : float) : M AnyAccount bool :=
  zoom as_account with_account (Account_deposit amount).

Definition history_add_transaction (transaction : Transaction) (now : string)
  : M AnyAccount unit :=
  zoom as_account with_account
       (zoom history set_history (add_transaction transaction now)).

(** [Withdrawal.register] and [Deposit.register] *)
Definition register (self : Transaction) (now : string) : M AnyAccount unit :=
  match self with
  | Withdrawal _ =>
      transaction_success <- withdraw (amount self) ;;
      if (transaction_success : bool)
      then history_add_transaction self now
      else ret tt
  | Deposit _ =>
      transaction_success <- deposit (amount self) ;;
      if (transaction_success : bool)
      then history_add_transaction self now
      else ret tt
  end.

(** [Customer.make_transaction] *)
Definition make_transaction (account : AnyAccount) (transaction : Transaction)
  (now : string) : unit * AnyAccount * list string :=
  register transaction now account.

Inductive Call : Type :=
| CallDeposit (a : float)
| CallWithdraw (a : float)
| CallRegister (t : Transaction) (now : string).

Definition step (o : AnyAccount) (c : Call) : AnyAccount :=
  match c with
  | CallDeposit a => after (deposit a o)
  | CallWithdraw a => after (withdraw a o)
  | CallRegister t now => after (register t now o)
  end.

Definition run (cs : list Call) (o : AnyAccount) : AnyAccount :=
  fold_left step cs o.

(** The account operation that [register] invokes for a transaction. *)
Definition account_operation (t : Transaction) : M AnyAccount bool :=
  match t with
  | Withdrawal _ => withdraw (amount t)
  | Deposit _ => deposit (amount t)
  end.

(** Applying transactions one after the other, each at its clock value. *)
Fixpoint apply_all (ts : list (Transaction * string)) (o : AnyAccount)
  : AnyAccount :=
  match ts with
  | [] => o
  | (t, now) :: rest => apply_all rest (after (register t now o))
  end.

(** The number of "Withdrawal" entries of an account's history. *)
Definition count_withdrawals (o : AnyAccount) : nat :=
  List.length (withdrawal_entries (history (as_account o))).

(** The two attributes that only a checking account has. *)
Definition limits (o : AnyAccount) : option (float * Z) :=
  match o with
  | IsAccount _ => None
  | IsChecking c => Some (_limit c, _withdrawal_limit c)
  end.

(** Every recorded amount is above zero. *)
Definition amounts_positive (o : AnyAccount) : Prop :=
  Forall (fun e => PrimFloat.ltb 0 (e_amount e) = true)
         (transactions (history (as_account o))).

(** The history of a checking account respects its two limits. *)
Definition within_limits (L : float) (M : Z) (o : AnyAccount) : Prop :=
  limits o = Some (L, M) /\
  (Z.of_nat (count_withdrawals o) <= Z.max 0 M)%Z /\
  Forall (fun e => e_type e = Withdrawal_name -> gt (e_amount e) L = false)
         (transactions (history (as_account o))).

(** What an entry does to a balance: a "Deposit" adds its amount, a
    "Withdrawal" subtracts it. *)
Definition replay_entry (b : float) (e : Entry) : float :=
  if String.eqb (e_type e) "Deposit" then PrimFloat.add b (e_amount e)
  else if String.eqb (e_type e) Withdrawal_name
       then PrimFloat.sub b (e_amount e)
       else b.

(** The entries of the history replayed from 0 in the order of recording.
    The order matters: float addition is not associative. *)
Definition replay (h : TransactionHistory) : float :=
  fold_left replay_entry (transactions h) 0%float.


End F64.

(** * The menu *)

(** ** The session: objects, console and clock *)

(** Functions of the Python library that the menu calls, taken as they
    are: [float_] and [int_text] return [None] where [float(text)] and
    [int(text)] raise [ValueError]; [str_] is [str(n)]; [format_2f] is the
    format [:.2f];
    [dedent] is [textwrap.dedent]; [object_str] is the default [str] of an
    object without [__str__]; [now_at k] is what
    [datetime.now().strftime("%d-%m-%Y %H:%M:%S")] gives when the [k]-th
    transaction is applied.

    The menu is read with the first reading of the amounts: the number that
    [float_] gives is one of the exact numbers of the accounts above, so
    that a session of the model is one in which whole amounts are typed.
    What is stated of the menu below is about which lines are read, which
    objects change and what a history holds, all of it decided by
    comparisons; nothing is stated there of what the arithmetic on the
    balance gives. *)
Class Python : Type := {
  float_ : string -> option Z;
  int_text : string -> option Z;
  str_ : Z -> string;
  format_2f : Z -> string;
  dedent : string -> string;
  object_str : Account -> string;
  now_at : nat -> string
}.

(** The two lists of [main] hold the objects of the session; they only
    grow, so that a reference to a customer or to an account is its
    position in the list.  [stdin] is the lines still to be read, [stdout]
    the texts written so far. *)
Record Session : Type := mkSession {
  main_customers : list IndividualCustomer;
  main_accounts : list AnyAccount;
  stdin : list string;
  stdout : list string;
  applied : nat
}.

(** What ends a function other than a return.  [EOFError] is raised by
    [input] at the end of the input; [IndexError] by an index out of the
    list; [Uncaught] carries an [InvalidDateException] that no handler
    catches; [Dangling] is a reference to no object. *)
Inductive Raised : Type :=
| EOFError
| IndexError
| Uncaught (e : Exception)
| Dangling.

(** [Diverged] is a loop that never ends. *)
Inductive Outcome (A : Type) : Type :=
| Returned (a : A)
| Raise (e : Raised)
| Diverged.

Arguments Returned {A} a.
Arguments Raise {A} e.
Arguments Diverged {A}.

Definition Cli (A : Type) : Type := Session -> Outcome A * Session.

Definition cli_ret {A} (a : A) : Cli A := fun s => (Returned a, s).

Definition cli_bind {A B} (m : Cli A) (k : A -> Cli B) : Cli B :=
  fun s =>
    match m s with
    | (Returned a, s') => k a s'
    | (Raise e, s') => (Raise e, s')
    | (Diverged, s') => (Diverged, s')
    end.

Notation "x <~ m ;; k" := (cli_bind m (fun x => k))
  (at level 61, m at next level, right associativity).
Notation "m ;;> k" := (cli_bind m (fun _ => k))
  (at level 61, right associativity).

Definition cli_raise {A} (e : Raised) : Cli A := fun s => (Raise e, s).

Definition session : Cli Session := fun s => (Returned s, s).

Definition write (texts : list string) (s : Session) : Session :=
  {| main_customers := main_customers s;
     main_accounts := main_accounts s;
     stdin := stdin s;
     stdout := (stdout s ++ texts)%list;
     applied := applied s |}.

(** [print(line)] *)
Definition cli_print (line : string) : Cli unit :=
  fun s => (Returned tt, write [line] s).

(** [input(prompt)]: the prompt is written, then a line is read. *)
Definition input (prompt : string) : Cli string :=
  fun s =>
    match stdin s with
    | [] => (Raise EOFError, write [prompt] s)
    | line :: rest =>
        (Returned line,
         {| main_customers := main_customers s;
            main_accounts := main_accounts s;
            stdin := rest;
            stdout := (stdout s ++ [prompt])%list;
            applied := applied s |})
    end.

(** A loop [while True:]; the body gives [Some a] when it leaves the loop
    with [a] (by [break] or [return]) and [None] when it goes round
    again. *)
Fixpoint while_true {A} (fuel : nat) (body : Cli (option A)) : Cli A :=
  match fuel with
  | O => fun s => (Diverged, s)
  | S n =>
      fun s =>
        match body s with
        | (Returned (Some a), s') => (Returned a, s')
        | (Returned None, s') => while_true n body s'
        | (Raise e, s') => (Raise e, s')
        | (Diverged, s') => (Diverged, s')
        end
  end.

(** Every loop of the program reads a line each time round: one round
    more than there are lines is as many as can be run. *)
Definition loop {A} (body : Cli (option A)) : Cli A :=
  fun s => while_true (S (List.length (stdin s))) body s.

Definition tab : string := String (ascii_of_nat 9) EmptyString.

(** [l[i] = x] on a list *)
Fixpoint replace_at {A} (i : nat) (x : A) (l : list A) : list A :=
  match l, i with
  | [], _ => []
  | _ :: rest, O => x :: rest
  | y :: rest, S j => y :: replace_at j x rest
  end.

(** [enumerate(l)] *)
Definition enumerate {A} (l : list A) : list (nat * A) :=
  combine (seq 0 (List.length l)) l.

(** [Customer.add_account]: the reference is appended. *)
Definition add_account (self : IndividualCustomer) (account : AccountRef)
  : IndividualCustomer :=
  {| address := address self;
     accounts := (accounts self ++ [account])%list;
     name := name self;
     date_of_birth := date_of_birth self;
     ssn := ssn self |}.

Inductive AccountClass : Type :=
| ClsAccount
| ClsCheckingAccount.

(** [Account.new_account], a class method: [cls(number, customer)]. *)
Definition new_account (cls : AccountClass) (customer : CustomerRef)
  (number : Z) : AnyAccount :=
  match cls with
  | ClsAccount => IsAccount (Account_init number customer)
  | ClsCheckingAccount =>
      IsChecking (CheckingAccount_init number customer None None)
  end.

Definition spaces (n : nat) : string :=
  string_of_list_ascii (repeat " "%char n).

Module Menu.

Section WithPython.

Context `{Python}.

(** [CheckingAccount.__str__], given the name of the holder. *)
Definition CheckingAccount_str (self : CheckingAccount) (holder : string)
  : string :=
  spaces 12 ++ "Branch:" ++ tab ++ branch (base self) ++ nl ++
  spaces 12 ++ "Account:" ++ tab ++ str_ (number (base self)) ++ nl ++
  spaces 12 ++ "Holder:" ++ tab ++ holder ++ nl ++
  spaces 8.

Definition menu_text : string :=
  nl ++ nl ++
  "    ================ MENU ================" ++ nl ++
  "    [1]" ++ tab ++ "Deposit" ++ nl ++
  "    [2]" ++ tab ++ "Withdraw" ++ nl ++
  "    [3]" ++ tab ++ "Statement" ++ nl ++
  "    [4]" ++ tab ++ "New Account" ++ nl ++
  "    [5]" ++ tab ++ "List Accounts" ++ nl ++
  "    [6]" ++ tab ++ "New Customer" ++ nl ++
  "    [7]" ++ tab ++ "Exit" ++ nl ++
  "    => ".

(** [menu] *)
Definition menu : Cli string := input (dedent menu_text).

(** [filter_customer]: the first customer of the list with the SSN, as a
    reference together with the object it refers to, or [None]. *)
Definition filter_customer (ssn' : string)
  (customers : list IndividualCustomer)
  : option (CustomerRef * IndividualCustomer) :=
  let filtered_customers :=
    filter (fun customer => String.eqb (ssn (snd customer)) ssn')
           (enumerate customers) in
  match filtered_customers with
  | first :: _ => Some first
  | [] => None
  end.

(** The object behind a reference to an account. *)
Definition account_at (r : AccountRef) : Cli AnyAccount :=
  fun s =>
    match nth_error (main_accounts s) r with
    | Some o => (Returned o, s)
    | None => (Raise Dangling, s)
    end.

(** The object behind a reference to a customer. *)
Definition customer_at (r : CustomerRef) : Cli IndividualCustomer :=
  fun s =>
    match nth_error (main_customers s) r with
    | Some c => (Returned c, s)
    | None => (Raise Dangling, s)
    end.

(** The [for] loop of [get_account] over [enumerate(customer.accounts)]. *)
Fixpoint print_accounts (l : list (nat * AccountRef)) : Cli unit :=
  match l with
  | [] => cli_ret tt
  | (i, r) :: rest =>
      account <~ account_at r ;;
      cli_print ("[" ++ str_ (Z.of_nat i + 1) ++ "] Branch: " ++
                 branch (as_account account) ++ ", Number: " ++
                 str_ (number (as_account account))) ;;>
      print_accounts rest
  end.

(** [get_account]: a reference to the chosen account, or [None]. *)
Definition get_account : Cli (option AccountRef) :=
  ssn' <~ input "Enter the customer's SSN: " ;;
  s <~ session ;;
  match filter_customer ssn' (main_customers s) with
  | None =>
      cli_print (nl ++ "@@@ Customer not found! @@@") ;;>
      cli_ret None
  | Some (_, customer) =>
      match accounts customer with
      | [] =>
          cli_print (nl ++ "@@@ Customer has no account! @@@") ;;>
          cli_ret None
      | [only] => cli_ret (Some only)
      | _ =>
          cli_print (nl ++ "=== Customer Accounts: ===") ;;>
          print_accounts (enumerate (accounts customer)) ;;>
          loop
            (text <~ input "Select the desired account: " ;;
             match int_text text with
             | Some account_option =>
                 if ((1 <=? account_option) &&
                     (account_option <=? Z.of_nat (List.length (accounts customer))))%Z
                 then
                   match nth_error (accounts customer)
                                   (Z.to_nat (account_option - 1)) with
                   | Some r => cli_ret (Some (Some r))
                   | None => cli_raise IndexError
                   end
                 else
                   cli_print (nl ++ "@@@ Invalid option! @@@") ;;>
                   cli_ret None
             | None =>
                 cli_print (nl ++ "@@@ Invalid input. Enter a number. @@@") ;;>
                 cli_ret None
             end)
      end
  end.

(** [account.customer.make_transaction(account, transaction)] on the
    account behind [r]: the object is changed in place. *)
Definition apply_transaction (r : AccountRef) (transaction : Transaction)
  : Cli unit :=
  account <~ account_at r ;;
  fun s =>
    let call :=
      make_transaction account transaction (now_at (applied s)) in
    (Returned tt,
     {| main_customers := main_customers s;
        main_accounts := replace_at r (after call) (main_accounts s);
        stdin := stdin s;
        stdout := (stdout s ++ output call)%list;
        applied := S (applied s) |}).

(** [deposit] *)
Definition deposit : Cli unit :=
  account <~ get_account ;;
  match account with
  | None => cli_ret tt
  | Some r =>
      loop
        (text <~ input "Enter the deposit amount: " ;;
         match float_ text with
         | Some amount =>
             if amount >? 0 then
               let transaction := Deposit amount in
               apply_transaction r transaction ;;>
               cli_ret (Some tt)
             else
               cli_print
                 (nl ++ "@@@ Operation failed! The deposit amount must be positive. @@@") ;;>
               cli_ret None
         | None =>
             cli_print (nl ++ "@@@ Invalid input. Enter a number. @@@") ;;>
             cli_ret None
         end)
  end.

(** [withdraw] *)
Definition withdraw : Cli unit :=
  account <~ get_account ;;
  match account with
  | None => cli_ret tt
  | Some r =>
      loop
        (text <~ input "Enter the withdrawal amount: " ;;
         match float_ text with
         | Some amount =>
             if amount >? 0 then
               let transaction := Withdrawal amount in
               apply_transaction r transaction ;;>
               cli_ret (Some tt)
             else
               cli_print
                 (nl ++ "@@@ Operation failed! The withdrawal amount must be positive. @@@") ;;>
               cli_ret None
         | None =>
             cli_print (nl ++ "@@@ Invalid input. Enter a number. @@@") ;;>
             cli_ret None
         end)
  end.

(** The text that [display_statement] builds from the entries. *)
Definition statement_of (transactions : list Entry) : string :=
  match transactions with
  | [] => "No transactions have been made."
  | _ =>
      fold_left
        (fun statement transaction =>
           statement ++ nl ++ e_type transaction ++ ":" ++ nl ++ tab ++ "$ " ++
           format_2f (e_amount transaction) ++ nl ++ tab ++ "Date: " ++
           e_date transaction)
        transactions ""
  end.

(** [display_statement] *)
Definition display_statement : Cli unit :=
  account <~ get_account ;;
  match account with
  | None => cli_ret tt
  | Some r =>
      account <~ account_at r ;;
      cli_print (nl ++ "================ STATEMENT ================") ;;>
      let transactions := transactions (history (as_account account)) in
      cli_print (statement_of transactions) ;;>
      cli_print (nl ++ "Balance:" ++ nl ++ tab ++ "$ " ++
                 format_2f (balance (as_account account))) ;;>
      cli_print "=========================================="
  end.

(** [create_customer] *)
Definition create_customer : Cli unit :=
  ssn' <~ input "Enter the SSN (numbers only): " ;;
  s <~ session ;;
  match filter_customer ssn' (main_customers s) with
  | Some _ =>
      cli_print (nl ++ "@@@ A customer with this SSN already exists! @@@")
  | None =>
      name <~ input "Enter the full name: " ;;
      date_of_birth <~
        loop
          (date_of_birth <~ input "Enter the date of birth (dd-mm-yyyy): " ;;
           match validate_date date_of_birth with
           | inr _ => cli_ret (Some date_of_birth)
           | inl (InvalidDateException e) =>
               cli_print (nl ++ "@@@ " ++ e ++ " @@@") ;;>
               cli_ret None
           end) ;;
      address <~
        input "Enter the address (street, number - neighborhood - city/state abbreviation): " ;;
      match IndividualCustomer_init name date_of_birth ssn' address with
      | inl e => cli_raise (Uncaught e)
      | inr customer =>
          (fun s =>
             (Returned tt,
              {| main_customers := (main_customers s ++ [customer])%list;
                 main_accounts := main_accounts s;
                 stdin := stdin s;
                 stdout := stdout s;
                 applied := applied s |})) ;;>
          cli_print (nl ++ "=== Customer created successfully! ===")
      end
  end.

(** [create_account]; [customer.accounts.append(account)] is what
    [add_account] does to the customer found. *)
Definition create_account (account_number : Z) : Cli unit :=
  ssn' <~ input "Enter the customer's SSN: " ;;
  s <~ session ;;
  match filter_customer ssn' (main_customers s) with
  | None =>
      cli_print
        (nl ++ "@@@ Customer not found, account creation flow terminated! @@@")
  | Some (customer, found) =>
      let account := new_account ClsCheckingAccount customer account_number in
      (fun s =>
         let r := List.length (main_accounts s) in
         (Returned tt,
          {| main_customers :=
               replace_at customer (add_account found r) (main_customers s);
             main_accounts := (main_accounts s ++ [account])%list;
             stdin := stdin s;
             stdout := stdout s;
             applied := applied s |})) ;;>
      cli_print (nl ++ "=== Account created successfully! ===")
  end.

(** [str(account)] *)
Definition str_account (account : AnyAccount) : Cli string :=
  match account with
  | IsAccount a => cli_ret (object_str a)
  | IsChecking c =>
      holder <~ customer_at (customer (base c)) ;;
      cli_ret (CheckingAccount_str c (name holder))
  end.

(** The [for] loop of [list_accounts]. *)
Fixpoint print_all (l : list AnyAccount) : Cli unit :=
  match l with
  | [] => cli_ret tt
  | account :: rest =>
      cli_print (string_of_list_ascii (repeat "="%char 100)) ;;>
      text <~ str_account account ;;
      cli_print (dedent text) ;;>
      print_all rest
  end.

(** [list_accounts] *)
Definition list_accounts : Cli unit :=
  s <~ session ;;
  print_all (main_accounts s).

(** One round of the loop of [main]. *)
Definition main_round : Cli (option unit) :=
  option <~ menu ;;
  if String.eqb option "1" then deposit ;;> cli_ret None
  else if String.eqb option "2" then withdraw ;;> cli_ret None
  else if String.eqb option "3" then display_statement ;;> cli_ret None
  else if String.eqb option "6" then create_customer ;;> cli_ret None
  else if String.eqb option "4" then
    s <~ session ;;
    let account_number := Z.of_nat (List.length (main_accounts s)) + 1 in
    create_account account_number ;;> cli_ret None
  else if String.eqb option "5" then list_accounts ;;> cli_ret None
  else if String.eqb option "7" then cli_ret (Some tt)
  else
    cli_print
      (nl ++ "@@@ Invalid operation, please select the desired operation again. @@@") ;;>
    cli_ret None.

(** The session at the start of [main], with the lines that will be
    typed. *)
Definition start (lines : list string) : Session :=
  {| main_customers := [];
     main_accounts := [];
     stdin := lines;
     stdout := [];
     applied := 0 |}.

(** [main] *)
Definition main : Cli unit := loop main_round.

End WithPython.

End Menu.

(** ** What holds of a session *)

(** An account of the session at position [i]: its number is [i + 1], it
    has the branch and the limits that [create_account] gives, its history
    respects them and holds only amounts above zero, and its holder lists
    it. *)
Definition account_ok (customers : list IndividualCustomer) (i : nat)
  (o : AnyAccount) : Prop :=
  number (as_account o) = Z.of_nat i + 1 /\
  branch (as_account o) = "0001" /\
  within_limits 500 3 o /\
  amounts_positive o /\
  exists c, nth_error customers (customer (as_account o)) = Some c /\
            In i (accounts c).

(** A customer of the session at position [j]: the date of birth is one
    that [validate_date] accepts, and every account listed exists and
    names this customer as its holder. *)
Definition customer_ok (accounts_ : list AnyAccount) (j : nat)
  (c : IndividualCustomer) : Prop :=
  validate_date (date_of_birth c) = inr tt /\
  forall r, In r (accounts c) ->
            exists o, nth_error accounts_ r = Some o /\
                      customer (as_account o) = j.

Definition well_formed (s : Session) : Prop :=
  NoDup (map ssn (main_customers s)) /\
  (forall j c, nth_error (main_customers s) j = Some c ->
               customer_ok (main_accounts s) j c) /\
  (forall i o, nth_error (main_accounts s) i = Some o ->
               account_ok (main_customers s) i o).

(** The objects of the session are the same. *)
Definition same_objects (s s' : Session) : Prop :=
  main_customers s' = main_customers s /\ main_accounts s' = main_accounts s.

(** A specification of a command: from a session that satisfies [P], the
    command returns with [Q], reading some of the input and putting none
    back, or raises with [E]; it does not run for ever. *)
Definition spec {A} (m : Cli A) (P : Session -> Prop)
  (Q : Session -> A -> Session -> Prop)
  (E : Session -> Raised -> Session -> Prop) : Prop :=
  forall s, P s ->
    match m s with
    | (Returned a, s') =>
        Q s a s' /\ (List.length (stdin s') <= List.length (stdin s))%nat
    | (Raise e, s') => E s e s'
    | (Diverged, _) => False
    end.

(** The only exception of a session in order is the end of the input, and
    it leaves the session in order. *)
Definition only_eof (_ : Session) (e : Raised) (s' : Session) : Prop :=
  e = EOFError /\ well_formed s'.

(** The account that [get_account] returns is one of those listed by the
    customer who has the SSN typed on the first line of the input. *)
Definition chosen_from (s : Session) (r : option AccountRef) : Prop :=
  match r with
  | None => True
  | Some i =>
      exists ssn' j c,
        hd_error (stdin s) = Some ssn' /\
        Menu.filter_customer ssn' (main_customers s) = Some (j, c) /\
        In i (accounts c)
  end.

(** Nothing is raised. *)
Definition no_raise (_ : Session) (_ : Raised) (_ : Session) : Prop := False.

(** The most that a deposit or a withdrawal made from the menu does to the
    session: nothing, or one transaction of an amount above zero applied to
    the chosen account.  It is what the order of the session needs; which
    of the two happens is told by [applies_first_amount] below. *)
Definition one_transaction (make : Z -> Transaction) (s s' : Session)
  : Prop :=
  main_customers s' = main_customers s /\
  (main_accounts s' = main_accounts s \/
   exists r o a now,
     chosen_from s (Some r) /\
     nth_error (main_accounts s) r = Some o /\ 0 < a /\
     main_accounts s' =
       replace_at r (after (register (make a) now o)) (main_accounts s)).

(** The most that [create_customer] does to the session: nothing, or one
    customer appended, who has the SSN typed on the first line (an SSN that
    no customer had), a date of birth that [validate_date] accepts and no
    account.  Which of the two happens is told by [creates_customer]
    below. *)
Definition customer_added (s s' : Session) : Prop :=
  main_accounts s' = main_accounts s /\
  (main_customers s' = main_customers s \/
   exists c,
     main_customers s' = (main_customers s ++ [c])%list /\
     hd_error (stdin s) = Some (ssn c) /\
     (forall c0, In c0 (main_customers s) -> ssn c0 <> ssn c) /\
     validate_date (date_of_birth c) = inr tt /\
     accounts c = []).

(** The most that [create_account] does to the session when it is called
    with the number [n]: nothing, or one checking account with the number
    [n] and the defaults appended, held by the first customer who has the
    SSN typed on the first line, and listed last by that customer.  Which
    of the two happens is told by [creates_account] below. *)
Definition account_added (n : Z) (s s' : Session) : Prop :=
  same_objects s s' \/
  exists ssn' j c,
    hd_error (stdin s) = Some ssn' /\
    Menu.filter_customer ssn' (main_customers s) = Some (j, c) /\
    main_accounts s' =
      (main_accounts s ++ [new_account ClsCheckingAccount j n])%list /\
    main_customers s' =
      replace_at j (add_account c (List.length (main_accounts s)))
                 (main_customers s).


(** The input has run out, and the objects are as they were. *)
Definition out_of_input {A} (s : Session) (ended : Outcome A * Session)
  : Prop :=
  fst ended = Raise EOFError /\ same_objects s (snd ended).



(** The first line that [validate_date] accepts, with the lines after it. *)
Fixpoint first_date (lines : list string) : option (string * list string) :=
  match lines with
  | [] => None
  | text :: rest =>
      match validate_date text with
      | inr _ => Some (text, rest)
      | inl _ => first_date rest
      end
  end.

(** What [create_customer] does, line by line: the SSN is read; when a
    customer has it, nothing else is read and nothing changes; otherwise a
    name, dates until one is accepted and an address are read, and the
    customer made of them is appended, with no account. *)
Definition creates_customer (s : Session) : Prop :=
  match stdin s with
  | [] => out_of_input s (Menu.create_customer s)
  | ssn' :: rest =>
      match Menu.filter_customer ssn' (main_customers s) with
      | Some _ =>
          fst (Menu.create_customer s) = Returned tt /\
          same_objects s (snd (Menu.create_customer s)) /\
          stdin (snd (Menu.create_customer s)) = rest
      | None =>
          match rest with
          | [] => out_of_input s (Menu.create_customer s)
          | name' :: rest =>
              match first_date rest with
              | None => out_of_input s (Menu.create_customer s)
              | Some (_, []) => out_of_input s (Menu.create_customer s)
              | Some (date, address' :: rest) =>
                  fst (Menu.create_customer s) = Returned tt /\
                  main_accounts (snd (Menu.create_customer s)) =
                    main_accounts s /\
                  main_customers (snd (Menu.create_customer s)) =
                    (main_customers s ++
                     [ {| address := address';
                          accounts := [];
                          name := name';
                          date_of_birth := date;
                          ssn := ssn' |} ])%list /\
                  stdin (snd (Menu.create_customer s)) = rest
              end
          end
      end
  end.

(** What [create_account] does when it is called with the number [n]: the
    SSN is read; when no customer has it nothing changes; otherwise a
    checking account with the number [n] and the defaults, held by the
    first customer with the SSN, is appended, and that customer lists it
    last. *)
Definition creates_account (n : Z) (s : Session) : Prop :=
  match stdin s with
  | [] => out_of_input s (Menu.create_account n s)
  | ssn' :: rest =>
      fst (Menu.create_account n s) = Returned tt /\
      stdin (snd (Menu.create_account n s)) = rest /\
      match Menu.filter_customer ssn' (main_customers s) with
      | None => same_objects s (snd (Menu.create_account n s))
      | Some (j, c) =>
          main_accounts (snd (Menu.create_account n s)) =
            (main_accounts s ++ [new_account ClsCheckingAccount j n])%list /\
          main_customers (snd (Menu.create_account n s)) =
            replace_at j (add_account c (List.length (main_accounts s)))
                       (main_customers s)
      end
  end.

(** ** A sample session *)

(** An instance of the library for examples: a number is typed as decimal
    digits and printed in decimal, texts are left as they are and the
    clock stands still. *)
Definition digits (text : string) : option Z :=
  let l := list_ascii_of_string text in
  match l with
  | [] => None
  | _ => if forallb is_digit l then Some (int_ l) else None
  end.

Definition sample_python : Python :=
  {| float_ := digits;
     int_text := digits;
     str_ := fun n => NilZero.string_of_int (Z.to_int n);
     format_2f := fun n => NilZero.string_of_int (Z.to_int n) ++ ".00";
     dedent := fun text => text;
     object_str := fun _ => "<Account object>";
     now_at := fun _ => "04-11-2026 10:00:00" |}.

(** A customer is created, then two accounts for the customer, then 100 is
    deposited on the first account, and the menu is left. *)
Definition demo_lines : list string :=
  ["6"; "111"; "Ana"; "01-01-1990"; "Rua A, 1";
   "4"; "111";
   "4"; "111";
   "1"; "111"; "1"; "100";
   "7"].

Definition demo_session : Session :=
  snd (@Menu.main sample_python (Menu.start demo_lines)).

(** The same session with other lines to read. *)
Definition retype (lines : list string) (s : Session) : Session :=
  {| main_customers := main_customers s;
     main_accounts := main_accounts s;
     stdin := lines;
     stdout := stdout s;
     applied := applied s |}.

(** ** A sample account *)

(** A checking account with the default ceiling 500 and maximum 3, a
    balance of 1000 and three withdrawals recorded. *)
Definition three_withdrawals : CheckingAccount :=
  {| base :=
       {| _balance := 1000; _number := 1; _branch := "0001";
          _customer := 0%nat;
          _history :=
            {| transactions :=
                 [ {| e_type := "Deposit"; e_amount := 1150;
                      e_date := "04-11-2026 09:00:00" |};
                   {| e_type := "Withdrawal"; e_amount := 50;
                      e_date := "04-11-2026 09:01:00" |};
                   {| e_type := "Withdrawal"; e_amount := 50;
                      e_date := "04-11-2026 09:02:00" |};
                   {| e_type := "Withdrawal"; e_amount := 50;
                      e_date := "04-11-2026 09:03:00" |} ] |} |};
     _limit := 500;
     _withdrawal_limit := 3 |}.

(** * Properties *)

(** ** What one call computes *)

Ltac run_method :=
  cbv [Account_withdraw Account_deposit CheckingAccount_withdraw
       withdraw deposit history_add_transaction add_transaction register
       make_transaction super zoom bind ret get put print
       result after output].

Ltac split_test :=
  match goal with
  | |- context [ ?a >? ?b ] => destruct (Z.gtb_spec a b)
  | |- context [ ?a >=? ?b ] => destruct (Z.geb_spec a b)
  end.

Lemma Account_deposit_eq (a : Z) (self : Account) :
  Account_deposit a self =
  if a >? 0
  then (true, set_balance self (_balance self + a), [msg_deposit_ok])
  else (false, self, [msg_invalid_amount]).
Proof. run_method. split_test; reflexivity. Qed.

Lemma Account_withdraw_eq (a : Z) (self : Account) :
  Account_withdraw a self =
  if a >? balance self then (false, self, [msg_insufficient_funds])
  else if a >? 0
       then (true, set_balance self (_balance self - a), [msg_withdrawal_ok])
       else (false, self, [msg_invalid_amount]).
Proof. run_method. repeat (split_test; try reflexivity). Qed.

Lemma set_base_same (c : CheckingAccount) : set_base c (base c) = c.
Proof. destruct c; reflexivity. Qed.

Lemma with_account_same (o : AnyAccount) : with_account o (as_account o) = o.
Proof. destruct o as [a | c]; simpl; [reflexivity | now rewrite set_base_same]. Qed.

Lemma as_with_account (o : AnyAccount) (a : Account) :
  as_account (with_account o a) = a.
Proof. destruct o; reflexivity. Qed.

Lemma deposit_eq (a : Z) (o : AnyAccount) :
  deposit a o =
  if a >? 0
  then (true,
        with_account o (set_balance (as_account o) (_balance (as_account o) + a)),
        [msg_deposit_ok])
  else (false, o, [msg_invalid_amount]).
Proof.
  unfold deposit, zoom. rewrite Account_deposit_eq.
  destruct (a >? 0); [reflexivity | now rewrite with_account_same].
Qed.

(** With int amounts [deposit(a)] returns [True] exactly when [a > 0]; then
    the balance grows by exactly [a]; when [a <= 0] it returns [False] and
    the account is the one it was, so that a deposit of 0 is a failure. *)
Theorem deposit_succeeds_iff_positive (o : AnyAccount) (a : Z) :
  (result (deposit a o) = true <-> 0 < a) /\
  (0 < a ->
   balance (as_account (after (deposit a o))) = balance (as_account o) + a) /\
  (a <= 0 -> result (deposit a o) = false /\ after (deposit a o) = o) /\
  (result (deposit 0 o) = false /\ after (deposit 0 o) = o).
Proof.
  rewrite !deposit_eq. unfold result, after; simpl.
  destruct (Z.gtb_spec a 0) as [Hpos | Hnon]; simpl.
  - rewrite as_with_account. repeat split; auto; lia.
  - repeat split; auto; try lia; try discriminate.
Qed.

(** With int amounts, on a base account with balance [b], [withdraw(a)]
    returns [True] exactly when [0 < a <= b]; then the balance drops by
    exactly [a]; otherwise it returns [False] and the account is the one it
    was. *)
Theorem base_withdraw_succeeds_iff_covered (self : Account) (a : Z) :
  let r := withdraw a (IsAccount self) in
  (result r = true <-> 0 < a <= balance self) /\
  (0 < a <= balance self ->
   balance (as_account (after r)) = balance self - a) /\
  (~ 0 < a <= balance self -> result r = false /\ after r = IsAccount self).
Proof.
  cbv zeta. unfold withdraw. rewrite Account_withdraw_eq.
  unfold result, after, balance.
  destruct (Z.gtb_spec a (_balance self)) as [Hins | Hcov]; simpl.
  - repeat split; auto; try lia; try discriminate.
  - destruct (Z.gtb_spec a 0) as [Hpos | Hnon]; simpl.
    + repeat split; auto; lia.
    + repeat split; auto; try lia; try discriminate.
Qed.

Lemma CheckingAccount_withdraw_eq (a : Z) (self : CheckingAccount) :
  CheckingAccount_withdraw a self =
  if a >? _limit self then (false, self, [msg_exceeds_limit])
  else if Z.of_nat (List.length (withdrawal_entries (history (base self))))
          >=? _withdrawal_limit self
       then (false, self, [msg_max_withdrawals])
       else super (Account_withdraw a) self.
Proof.
  cbv [CheckingAccount_withdraw bind get print ret].
  destruct (a >? _limit self); [reflexivity |].
  destruct (_ >=? _); [reflexivity |].
  destruct (super (Account_withdraw a) self) as [[r s] out].
  now rewrite app_nil_l.
Qed.

Lemma super_withdraw_eq (a : Z) (self : CheckingAccount) :
  super (Account_withdraw a) self =
  if a >? balance (base self) then (false, self, [msg_insufficient_funds])
  else if a >? 0
       then (true, set_base self (set_balance (base self) (_balance (base self) - a)),
             [msg_withdrawal_ok])
       else (false, self, [msg_invalid_amount]).
Proof.
  unfold super, zoom. rewrite Account_withdraw_eq.
  destruct (a >? balance (base self)); [now rewrite set_base_same |].
  destruct (a >? 0); [reflexivity | now rewrite set_base_same].
Qed.

(** C1: [CheckingAccount.withdraw] tests the ceiling first, then the number
    of recorded withdrawals, and only then runs the rule of [Account]:
    an amount above the ceiling [L] fails with the receiver untouched,
    whatever the balance and the history; an amount within the ceiling
    fails with the receiver untouched when [M] or more "Withdrawal" entries
    are recorded; otherwise the call is the inherited one, which still
    fails when the funds do not cover the amount. *)
Theorem checking_withdraw_guard_order (self : CheckingAccount) (a : Z) :
  let L := _limit self in
  let M := _withdrawal_limit self in
  let n := Z.of_nat (List.length (withdrawal_entries (history (base self)))) in
  let r := CheckingAccount_withdraw a self in
  (L < a -> r = (false, self, [msg_exceeds_limit])) /\
  (a <= L -> M <= n -> r = (false, self, [msg_max_withdrawals])) /\
  (a <= L -> n < M -> r = super (Account_withdraw a) self) /\
  (a <= L -> n < M -> balance (base self) < a ->
   r = (false, self, [msg_insufficient_funds])).
Proof.
  cbv zeta. rewrite CheckingAccount_withdraw_eq, super_withdraw_eq.
  destruct (Z.gtb_spec a (_limit self)) as [Hover | Hin].
  - repeat split; intros; try lia; reflexivity.
  - destruct (Z.geb_spec
                (Z.of_nat (List.length (withdrawal_entries (history (base self)))))
                (_withdrawal_limit self)) as [Hmax | Hfew].
    + repeat split; intros; try lia; reflexivity.
    + repeat split; intros; try lia; try reflexivity.
      destruct (Z.gtb_spec a (balance (base self))); [reflexivity | lia].
Qed.

(** ** What the dispatched operations and [register] compute *)

Lemma withdraw_effect (a : Z) (o : AnyAccount) :
  let r := withdraw a o in
  (result r = false /\ after r = o) \/
  (result r = true /\ 0 < a <= balance (as_account o) /\
   after r =
   with_account o (set_balance (as_account o) (_balance (as_account o) - a))).
Proof.
  cbv zeta. destruct o as [self | self]; unfold withdraw.
  - rewrite Account_withdraw_eq. unfold result, after, balance; simpl.
    destruct (Z.gtb_spec a (_balance self)); simpl; auto.
    destruct (Z.gtb_spec a 0); simpl; auto;
      right; repeat split; auto; lia.
  - rewrite CheckingAccount_withdraw_eq, super_withdraw_eq.
    unfold result, after, balance; simpl.
    destruct (a >? _limit self); simpl; auto.
    destruct (_ >=? _); simpl; auto.
    destruct (Z.gtb_spec a (_balance (base self))); simpl; auto.
    destruct (Z.gtb_spec a 0); simpl; auto;
      right; repeat split; auto; lia.
Qed.

Lemma deposit_effect (a : Z) (o : AnyAccount) :
  let r := deposit a o in
  (result r = false /\ after r = o) \/
  (result r = true /\ 0 < a /\
   after r =
   with_account o (set_balance (as_account o) (_balance (as_account o) + a))).
Proof.
  cbv zeta. rewrite deposit_eq. unfold result, after.
  destruct (Z.gtb_spec a 0); simpl; auto;
    right; repeat split; auto; lia.
Qed.

(** Either the operation fails and the object is untouched, or it succeeds
    and only the balance is assigned, to a value that is not negative when
    the old one was not. *)
Lemma account_operation_effect (t : Transaction) (o : AnyAccount) :
  let r := account_operation t o in
  (result r = false /\ after r = o) \/
  (result r = true /\
   exists b, after r = with_account o (set_balance (as_account o) b) /\
             (0 <= balance (as_account o) -> 0 <= b)).
Proof.
  cbv zeta. destruct t as [a | a]; simpl.
  - destruct (withdraw_effect a o) as [Hf | (Hr & Ha & Hs)]; [now left |].
    right. split; [exact Hr |]. eexists. split; [exact Hs |].
    unfold balance in *. lia.
  - destruct (deposit_effect a o) as [Hf | (Hr & Ha & Hs)]; [now left |].
    right. split; [exact Hr |]. eexists. split; [exact Hs |].
    unfold balance in *. lia.
Qed.

Lemma register_eq (t : Transaction) (now : string) (o : AnyAccount) :
  register t now o =
  let r := account_operation t o in
  if result r
  then (tt,
        with_account (after r)
          (set_history (as_account (after r))
             {| transactions :=
                  (transactions (history (as_account (after r)))
                   ++ [entry_of t now])%list |}),
        output r)
  else (tt, after r, output r).
Proof.
  cbv zeta.
  destruct t as [a | a]; unfold register, account_operation, bind; simpl amount.
  - destruct (withdraw a o) as [[ok s] out]; unfold result, after, output; simpl.
    destruct ok; simpl; now rewrite app_nil_r.
  - destruct (deposit a o) as [[ok s] out]; unfold result, after, output; simpl.
    destruct ok; simpl; now rewrite app_nil_r.
Qed.

Lemma after_triple {S A} (x : A) (s : S) (out : list string) :
  after (x, s, out) = s.
Proof. reflexivity. Qed.

Lemma history_with_set_balance (o : AnyAccount) (b : Z) :
  history (as_account (with_account o (set_balance (as_account o) b))) =
  history (as_account o).
Proof. now rewrite as_with_account. Qed.

(** A successful application: the balance is the one the operation left
    and the history has the transaction's entry at its end. *)
Lemma register_success (t : Transaction) (now : string) (o : AnyAccount) :
  result (account_operation t o) = true ->
  balance (as_account (after (register t now o))) =
    balance (as_account (after (account_operation t o))) /\
  transactions (history (as_account (after (register t now o)))) =
    (transactions (history (as_account o)) ++ [entry_of t now])%list.
Proof.
  intros Hok. rewrite register_eq. cbv zeta. rewrite Hok.
  rewrite after_triple, as_with_account.
  split; [reflexivity |].
  destruct (account_operation_effect t o) as [[Hf _] | (_ & b & Hs & _)];
    [congruence |].
  rewrite Hs, history_with_set_balance. reflexivity.
Qed.

(** A failed application leaves the object as it was. *)
Lemma register_failure (t : Transaction) (now : string) (o : AnyAccount) :
  result (account_operation t o) = false ->
  after (register t now o) = o.
Proof.
  intros Hko. rewrite register_eq. cbv zeta. rewrite Hko, after_triple.
  destruct (account_operation_effect t o) as [[_ Hs] | [Hr _]];
    [exact Hs | congruence].
Qed.

(** ** Frame *)

Lemma same_but_balance_refl (x : Account) : same_but_balance x x.
Proof. repeat split. Qed.

Lemma same_but_balance_set (x : Account) (b : Z) :
  same_but_balance x (set_balance x b).
Proof. repeat split. Qed.

Create HintDb frame.
#[local] Hint Resolve same_but_balance_refl same_but_balance_set : frame.

Lemma limits_with_account (o : AnyAccount) (a : Account) :
  limits (with_account o a) = limits o.
Proof. destruct o; reflexivity. Qed.

Lemma same_but_balance_with (o : AnyAccount) (b : Z) :
  same_but_balance (as_account o)
    (as_account (with_account o (set_balance (as_account o) b))).
Proof. rewrite as_with_account. apply same_but_balance_set. Qed.

#[local] Hint Resolve same_but_balance_with limits_with_account : frame.

(** C10: a direct call of [Account.deposit], [Account.withdraw] or
    [CheckingAccount.withdraw] leaves the number, the branch, the customer
    and the history of the account as they were, and on a checking account
    also the ceiling and the maximum number of withdrawals; so does the
    call [account.deposit] or [account.withdraw] on an object of either
    class. *)
Theorem direct_calls_change_only_balance (a : Z) :
  (forall self : Account,
      same_but_balance self (after (Account_deposit a self)) /\
      same_but_balance self (after (Account_withdraw a self))) /\
  (forall self : CheckingAccount,
      let self' := after (CheckingAccount_withdraw a self) in
      same_but_balance (base self) (base self') /\
      _limit self' = _limit self /\
      _withdrawal_limit self' = _withdrawal_limit self) /\
  (forall o : AnyAccount,
      same_but_balance (as_account o) (as_account (after (deposit a o))) /\
      limits (after (deposit a o)) = limits o /\
      same_but_balance (as_account o) (as_account (after (withdraw a o))) /\
      limits (after (withdraw a o)) = limits o).
Proof.
  split; [| split]; intros self.
  - rewrite Account_deposit_eq, Account_withdraw_eq. unfold after.
    split; repeat (match goal with |- context [if ?c then _ else _] => destruct c end);
      simpl; auto with frame.
  - cbv zeta.
    rewrite CheckingAccount_withdraw_eq, super_withdraw_eq. unfold after.
    repeat (match goal with |- context [if ?c then _ else _] => destruct c end);
      simpl; auto with frame.
  - destruct (deposit_effect a self) as [[_ Hd] | (_ & _ & Hd)];
      destruct (withdraw_effect a self) as [[_ Hw] | (_ & _ & Hw)];
      rewrite Hd, Hw; auto with frame.
Qed.

(** ** Recording in the history *)

Lemma app_one_neq {A} (l : list A) (x : A) : (l ++ [x])%list <> l.
Proof.
  intros H. apply (f_equal (@List.length A)) in H.
  rewrite length_app in H. simpl in H. lia.
Qed.

Lemma count_withdrawals_register (t : Transaction) (now : string)
  (o : AnyAccount) :
  count_withdrawals (after (register t now o)) =
  (count_withdrawals o +
   (if is_withdrawal t && result (account_operation t o) then 1 else 0))%nat.
Proof.
  destruct (result (account_operation t o)) eqn:Hr.
  - destruct (register_success t now o Hr) as [_ Hh].
    unfold count_withdrawals, withdrawal_entries. rewrite Hh.
    rewrite filter_app, length_app.
    destruct t; simpl; lia.
  - rewrite (register_failure t now o Hr), andb_false_r. lia.
Qed.

Lemma count_withdrawals_apply_all (ts : list (Transaction * string)) :
  forall o : AnyAccount,
    count_withdrawals (apply_all ts o) =
    (count_withdrawals o + withdrawals_succeeded ts o)%nat.
Proof.
  induction ts as [| [t now] rest IH]; intros o; simpl.
  - lia.
  - rewrite IH, count_withdrawals_register. lia.
Qed.

Lemma withdrawals_succeeded_or_failed (ts : list (Transaction * string)) :
  forall o : AnyAccount,
    (withdrawals_succeeded ts o + withdrawals_failed ts o)%nat =
    List.length (filter is_withdrawal (map fst ts)).
Proof.
  induction ts as [| [t now] rest IH]; intros o; simpl.
  - reflexivity.
  - specialize (IH (after (register t now o))).
    destruct (is_withdrawal t), (result (account_operation t o));
      simpl; lia.
Qed.

(** C4: applying a transaction appends its entry to the history exactly
    when the account operation it invokes reports success; a failed
    application leaves the whole account (balance and history) as it was.
    Hence, over any sequence of applications, the number of "Withdrawal"
    entries grows by the number [k] of withdrawals that succeeded, whatever
    the number [j] of those that failed: on an account that starts with no
    withdrawal recorded it is [k]. *)
Theorem register_records_exactly_on_success
  (t : Transaction) (now : string) (o : AnyAccount)
  (ts : list (Transaction * string)) :
  let r := account_operation t o in
  let o' := after (register t now o) in
  (transactions (history (as_account o')) =
     (transactions (history (as_account o)) ++ [entry_of t now])%list
   <-> result r = true) /\
  (result r = false -> o' = o) /\
  (withdrawals_succeeded ts o + withdrawals_failed ts o)%nat =
    List.length (filter is_withdrawal (map fst ts)) /\
  count_withdrawals (apply_all ts o) =
    (count_withdrawals o + withdrawals_succeeded ts o)%nat /\
  (forall (n : Z) (c : CustomerRef) (l w : option Z),
      count_withdrawals (apply_all ts (IsAccount (Account_init n c))) =
        withdrawals_succeeded ts (IsAccount (Account_init n c)) /\
      count_withdrawals
        (apply_all ts (IsChecking (CheckingAccount_init n c l w))) =
        withdrawals_succeeded ts (IsChecking (CheckingAccount_init n c l w))).
Proof.
  cbv zeta. repeat split.
  - intros Hh. destruct (result (account_operation t o)) eqn:Hr; [reflexivity |].
    rewrite (register_failure t now o Hr) in Hh.
    symmetry in Hh. now apply app_one_neq in Hh.
  - intros Hr. now apply register_success.
  - apply register_failure.
  - apply withdrawals_succeeded_or_failed.
  - apply count_withdrawals_apply_all.
  - now rewrite count_withdrawals_apply_all.
  - now rewrite count_withdrawals_apply_all.
Qed.

Lemma register_deposit_base (x : Z) (t : string) (self : Account) :
  0 < x ->
  after (register (Deposit x) t (IsAccount self)) =
  IsAccount
    (set_history (set_balance self (_balance self + x))
       {| transactions :=
            (transactions (history self) ++ [entry_of (Deposit x) t])%list |}).
Proof.
  intros Hx. rewrite register_eq. cbv zeta. simpl account_operation.
  rewrite deposit_eq.
  destruct (Z.gtb_spec x 0) as [_ | Hn]; [reflexivity | lia].
Qed.

Lemma register_withdrawal_base (x : Z) (t : string) (self : Account) :
  0 < x <= balance self ->
  after (register (Withdrawal x) t (IsAccount self)) =
  IsAccount
    (set_history (set_balance self (_balance self - x))
       {| transactions :=
            (transactions (history self) ++ [entry_of (Withdrawal x) t])%list |}).
Proof.
  intros Hx. rewrite register_eq. cbv zeta. simpl account_operation.
  unfold withdraw. rewrite Account_withdraw_eq.
  destruct (Z.gtb_spec x (balance self)) as [Hn | _]; [lia |].
  destruct (Z.gtb_spec x 0) as [_ | Hn]; [reflexivity | lia].
Qed.

(** With int amounts, on a base account just created, applying a deposit
    of [x > 0] and then a withdrawal of [x] brings the balance back to 0
    and leaves a history of exactly two entries, the deposit first and the
    withdrawal second. *)
Theorem deposit_then_withdraw_round_trip
  (n : Z) (c : CustomerRef) (x : Z) (t1 t2 : string) :
  0 < x ->
  let o0 := IsAccount (Account_init n c) in
  let o1 := after (make_transaction o0 (Deposit x) t1) in
  let o2 := after (make_transaction o1 (Withdrawal x) t2) in
  balance (as_account o0) = 0 /\
  balance (as_account o2) = 0 /\
  transactions (history (as_account o2)) =
    [ {| e_type := "Deposit"; e_amount := x; e_date := t1 |};
      {| e_type := "Withdrawal"; e_amount := x; e_date := t2 |} ].
Proof.
  intros Hx. cbv zeta. unfold make_transaction.
  rewrite register_deposit_base by exact Hx.
  rewrite register_withdrawal_base by (unfold balance; simpl; lia).
  unfold balance; simpl. repeat split. lia.
Qed.

(** ** The balance is never negative *)

Lemma balance_with_set_balance (o : AnyAccount) (b : Z) :
  balance (as_account (with_account o (set_balance (as_account o) b))) = b.
Proof. now rewrite as_with_account. Qed.




(** ** The count of withdrawals *)

Lemma withdrawal_entries_count (l : list Entry) :
  List.length
    (filter (fun e => String.eqb (e_type e) Withdrawal_name) l) =
  count_occ string_dec (map e_type l) Withdrawal_name.
Proof.
  induction l as [| e rest IH]; simpl; [reflexivity |].
  destruct (String.eqb_spec (e_type e) Withdrawal_name) as [He | He];
    destruct (string_dec (e_type e) Withdrawal_name) as [Hd | Hd];
    simpl; congruence.
Qed.

Lemma withdrawal_entries_restamp (f : string -> string)
  (h : TransactionHistory) :
  List.length (withdrawal_entries (restamp f h)) =
  List.length (withdrawal_entries h).
Proof.
  unfold withdrawal_entries. rewrite !withdrawal_entries_count.
  unfold restamp; simpl. now rewrite map_map.
Qed.

Lemma step_keeps_withdrawals (o : AnyAccount) (c : Call) :
  (count_withdrawals o <= count_withdrawals (step o c))%nat.
Proof.
  destruct c as [a | a | t now]; simpl.
  - destruct (deposit_effect a o) as [[_ Hs] | (_ & _ & Hs)]; rewrite Hs;
      [lia |].
    unfold count_withdrawals. rewrite history_with_set_balance. lia.
  - destruct (withdraw_effect a o) as [[_ Hs] | (_ & _ & Hs)]; rewrite Hs;
      [lia |].
    unfold count_withdrawals. rewrite history_with_set_balance. lia.
  - rewrite count_withdrawals_register. lia.
Qed.

Lemma run_keeps_withdrawals (cs : list Call) :
  forall o : AnyAccount,
    (count_withdrawals o <= count_withdrawals (run cs o))%nat.
Proof.
  unfold run. induction cs as [| c rest IH]; intros o; simpl.
  - lia.
  - etransitivity; [apply (step_keeps_withdrawals o c) | apply IH].
Qed.

(** C5: the number that [CheckingAccount.withdraw] compares with the
    maximum is the number of entries of type "Withdrawal" in the whole
    history of the receiver at the time of the call: an amount within the
    ceiling is refused with the message of the maximum exactly when that
    number has reached the maximum, and is otherwise left to the inherited
    rule; the timestamps play no part in the number, nor in the outcome of
    the call; and no call on the account ever makes it smaller. *)
Theorem withdrawal_count_is_cumulative
  (self : CheckingAccount) (a : Z) (f : string -> string)
  (o : AnyAccount) (cs : list Call) :
  let restamped :=
    set_base self (set_history (base self) (restamp f (history (base self)))) in
  List.length (withdrawal_entries (history (base self))) =
    count_occ string_dec
      (map e_type (transactions (history (base self)))) "Withdrawal" /\
  List.length (withdrawal_entries (history (base restamped))) =
    List.length (withdrawal_entries (history (base self))) /\
  result (CheckingAccount_withdraw a restamped) =
    result (CheckingAccount_withdraw a self) /\
  (count_withdrawals o <= count_withdrawals (run cs o))%nat /\
  (forall (t : Transaction) (now : string),
      count_withdrawals (after (register t now o)) =
      (count_withdrawals o +
       (if is_withdrawal t && result (account_operation t o) then 1 else 0))%nat) /\
  ((a >? _limit self) = false ->
   (CheckingAccount_withdraw a self = (false, self, [msg_max_withdrawals]) <->
    _withdrawal_limit self <=
    Z.of_nat
      (count_occ string_dec
         (map e_type (transactions (history (base self)))) "Withdrawal"))) /\
  ((a >? _limit self) = false ->
   Z.of_nat
     (count_occ string_dec
        (map e_type (transactions (history (base self)))) "Withdrawal")
   < _withdrawal_limit self ->
   CheckingAccount_withdraw a self = super (Account_withdraw a) self).
Proof.
  cbv zeta.
  assert (Hcount :
    List.length (withdrawal_entries (history (base self))) =
    count_occ string_dec
      (map e_type (transactions (history (base self)))) "Withdrawal")
    by apply withdrawal_entries_count.
  split; [exact Hcount |].
  split; [apply withdrawal_entries_restamp |].
  split; [| split; [apply run_keeps_withdrawals |
            split; [intros t now; apply count_withdrawals_register |]]].
  2: {
    split; intros Hl; rewrite CheckingAccount_withdraw_eq, Hl, Hcount.
    - destruct (Z.geb_spec
                  (Z.of_nat
                     (count_occ string_dec
                        (map e_type (transactions (history (base self))))
                        "Withdrawal"))
                  (_withdrawal_limit self)) as [Hge | Hlt].
      + split; [lia | reflexivity].
      + split; [| lia]. rewrite super_withdraw_eq.
        destruct (a >? balance (base self)); [discriminate |].
        destruct (a >? 0); discriminate.
    - intros Hlt.
      destruct (Z.geb_spec
                  (Z.of_nat
                     (count_occ string_dec
                        (map e_type (transactions (history (base self))))
                        "Withdrawal"))
                  (_withdrawal_limit self)) as [Hge | _]; [lia | reflexivity].
  }
  rewrite !CheckingAccount_withdraw_eq, !super_withdraw_eq.
  simpl base. simpl _limit. simpl _withdrawal_limit.
  change (history (set_history (base self) (restamp f (history (base self)))))
    with (restamp f (history (base self))).
  rewrite withdrawal_entries_restamp.
  change (balance (set_history (base self) (restamp f (history (base self)))))
    with (balance (base self)).
  unfold result.
  repeat (match goal with
          | |- context [if ?c then _ else _] => destruct c
          end; simpl; try reflexivity).
Qed.

(** ** Who writes the history *)

(** C6, as the program has it: [Account.deposit] and [Account.withdraw]
    never touch the history, whether they succeed or not; the entry of a
    successful operation is appended by [Deposit.register] or
    [Withdrawal.register], which call the operation and then
    [add_transaction]; when the operation fails they append nothing and the
    account is the one it was. *)
Theorem history_entry_is_appended_by_register
  (self : Account) (a : Z) (t : Transaction) (now : string) (o : AnyAccount) :
  history (after (Account_deposit a self)) = history self /\
  history (after (Account_withdraw a self)) = history self /\
  (result (account_operation t o) = true ->
   transactions (history (as_account (after (register t now o)))) =
     (transactions (history (as_account o)) ++
      [ {| e_type := class_name t; e_amount := amount t; e_date := now |} ])%list) /\
  (result (account_operation t o) = false ->
   after (register t now o) = o).
Proof.
  split; [| split; [| split]].
  - rewrite Account_deposit_eq. now destruct (a >? 0).
  - rewrite Account_withdraw_eq.
    destruct (a >? balance self); [reflexivity |]. now destruct (a >? 0).
  - intros Hr. now apply register_success.
  - apply register_failure.
Qed.

(** C6 as stated fails: on a new account a direct deposit of 100 and then a
    direct withdrawal of 40 both succeed, and the history is still empty. *)
Lemma direct_calls_record_nothing :
  let r1 := Account_deposit 100 (Account_init 1 0%nat) in
  let r2 := Account_withdraw 40 (after r1) in
  result r1 = true /\ balance (after r1) = 100 /\
  transactions (history (after r1)) = [] /\
  result r2 = true /\ balance (after r2) = 60 /\
  transactions (history (after r2)) = [].
Proof. repeat split. Qed.

(** ** Dates *)

Example strptime_leap_day : strptime "29-02-2000" = Some (2000, 2, 29).
Proof. reflexivity. Qed.

Example strptime_no_leap_day : strptime "29-02-1900" = None.
Proof. reflexivity. Qed.

Example strptime_text_remains : strptime "01-01-19900" = None.
Proof. reflexivity. Qed.

Example strptime_other_delimiter : strptime "01/01/1990" = None.
Proof. reflexivity. Qed.

Example strptime_year_zero : strptime "01-01-0000" = None.
Proof. reflexivity. Qed.

Example strptime_blank_day : strptime " 1-01-1990" = Some (1990, 1, 1).
Proof. reflexivity. Qed.

Lemma IndividualCustomer_init_raises (n d s a : string) (e : Exception) :
  IndividualCustomer_init n d s a = inl e <-> validate_date d = inl e.
Proof.
  unfold IndividualCustomer_init.
  destruct (validate_date d) as [e' | []]; split; congruence.
Qed.

(** C8, at the inputs that decide it: the two dates of the specification
    behave as it says ("31-02-2020" raises [InvalidDateException] with its
    message, from the validator and from the constructor; "01-01-1990" is
    accepted by both), but "1-1-1990", which is not in the form dd-mm-yyyy,
    is accepted as well. *)
Theorem validate_date_accepts_one_digit_fields :
  validate_date "31-02-2020" =
    inl (InvalidDateException "Invalid date. Use the format dd-mm-yyyy.") /\
  IndividualCustomer_init "Ana" "31-02-2020" "111" "Rua A, 1" =
    inl (InvalidDateException "Invalid date. Use the format dd-mm-yyyy.") /\
  validate_date "01-01-1990" = inr tt /\
  IndividualCustomer_init "Ana" "01-01-1990" "111" "Rua A, 1" =
    inr {| address := "Rua A, 1"; accounts := []; name := "Ana";
           date_of_birth := "01-01-1990"; ssn := "111" |} /\
  dd_mm_yyyy "01-01-1990" = true /\
  dd_mm_yyyy "31-02-2020" = false /\
  dd_mm_yyyy "1-1-1990" = false /\
  validate_date "1-1-1990" = inr tt /\
  IndividualCustomer_init "Ana" "1-1-1990" "111" "Rua A, 1" =
    inr {| address := "Rua A, 1"; accounts := []; name := "Ana";
           date_of_birth := "1-1-1990"; ssn := "111" |}.
Proof. repeat split; vm_compute; reflexivity. Qed.

(** ** Every text in the form dd-mm-yyyy is accepted *)

Lemma is_digit_cases (c : ascii) :
  is_digit c = true ->
  In c ["0"; "1"; "2"; "3"; "4"; "5"; "6"; "7"; "8"; "9"]%char.
Proof.
  destruct c as [[] [] [] [] [] [] [] []]; vm_compute; intros H;
    try discriminate H; auto 12.
Qed.

Ltac each_digit H :=
  apply is_digit_cases in H; simpl in H;
  repeat (destruct H as [H | H]; [symmetry in H; subst |]); [.. | contradiction].

Lemma re_d_two_digits (d1 d2 : ascii) (rest : list ascii) :
  is_digit d1 = true -> is_digit d2 = true ->
  ((1 <=? int_ [d1; d2]) && (int_ [d1; d2] <=? 31))%Z = true ->
  exists tl, matches re_d (d1 :: d2 :: rest) = ([d1; d2], rest) :: tl.
Proof.
  intros H1 H2 Hday. each_digit H1; each_digit H2;
    first [ discriminate Hday | vm_compute; eexists; reflexivity ].
Qed.

Lemma re_m_two_digits (m1 m2 : ascii) (rest : list ascii) :
  is_digit m1 = true -> is_digit m2 = true ->
  ((1 <=? int_ [m1; m2]) && (int_ [m1; m2] <=? 12))%Z = true ->
  exists tl, matches re_m (m1 :: m2 :: rest) = ([m1; m2], rest) :: tl.
Proof.
  intros H1 H2 Hmonth. each_digit H1; each_digit H2;
    first [ discriminate Hmonth | vm_compute; eexists; reflexivity ].
Qed.

Lemma re_digit_one (c : ascii) (rest : list ascii) :
  is_digit c = true -> matches re_digit (c :: rest) = [([c], rest)].
Proof. unfold is_digit. intros H. simpl. now rewrite H. Qed.

Lemma re_Y_four_digits (y1 y2 y3 y4 : ascii) (rest : list ascii) :
  is_digit y1 = true -> is_digit y2 = true ->
  is_digit y3 = true -> is_digit y4 = true ->
  matches re_Y (y1 :: y2 :: y3 :: y4 :: rest) = [([y1; y2; y3; y4], rest)].
Proof.
  intros H1 H2 H3 H4. unfold re_Y.
  cbn [matches]. fold (matches re_digit).
  rewrite (re_digit_one y1) by exact H1. cbn [flat_map map fst snd app].
  rewrite (re_digit_one y2) by exact H2. cbn [flat_map map fst snd app].
  rewrite (re_digit_one y3) by exact H3. cbn [flat_map map fst snd app].
  rewrite (re_digit_one y4) by exact H4. reflexivity.
Qed.

Lemma _days_in_month_le_31 (year month : Z) : _days_in_month year month <= 31.
Proof.
  unfold _days_in_month. destruct (_ && _); [lia |].
  destruct (Z.to_nat month) as [| [| [| [| [| [| [| [| [| [| [| [| [| k]]]]]]]]]]]]];
    simpl; try lia.
  destruct k; simpl; lia.
Qed.

Lemma _check_date_fields_bounds (year month day : Z) :
  _check_date_fields year month day = true ->
  ((1 <=? month) && (month <=? 12))%Z = true /\
  ((1 <=? day) && (day <=? 31))%Z = true.
Proof.
  unfold _check_date_fields. rewrite !andb_true_iff, !Z.leb_le.
  pose proof (_days_in_month_le_31 year month). intuition lia.
Qed.

(** X20: the strict reading implies acceptance: a text of two digits, a
    hyphen, two digits, a hyphen and four digits that names a day of the
    calendar in the years 1 to 9999 is accepted by [validate_date]. *)
Lemma dd_mm_yyyy_is_accepted (date_str : string) :
  dd_mm_yyyy date_str = true -> validate_date date_str = inr tt.
Proof.
  unfold dd_mm_yyyy, validate_date, strptime.
  destruct (list_ascii_of_string date_str)
    as [| d1 [| d2 [| s1 [| m1 [| m2 [| s2 [| y1 [| y2 [| y3 [| y4 [| x l]]]]]]]]]]];
    try discriminate.
  rewrite !andb_true_iff. intros H.
  repeat match goal with H : _ /\ _ |- _ => destruct H end.
  repeat match goal with
         | H : Ascii.eqb _ _ = true |- _ => apply Ascii.eqb_eq in H; subst
         end.
  match goal with
  | H : _check_date_fields _ _ _ = true |- _ =>
      destruct (_check_date_fields_bounds _ _ _ H) as [Hmonth Hday];
      rename H into Hdate
  end.
  destruct (re_d_two_digits d1 d2 ("-"%char :: m1 :: m2 :: "-"%char :: [y1; y2; y3; y4]))
    as [tld Hd]; auto.
  destruct (re_m_two_digits m1 m2 ("-"%char :: [y1; y2; y3; y4]))
    as [tlm Hm]; auto.
  unfold format_regex_match. rewrite Hd.
  cbn [flat_map fst snd]. cbn [matches]. cbn [Ascii.eqb Bool.eqb].
  cbn [flat_map fst snd app]. rewrite Hm.
  cbn [flat_map fst snd]. cbn [matches]. cbn [Ascii.eqb Bool.eqb].
  cbn [flat_map fst snd app].
  rewrite re_Y_four_digits by assumption.
  cbn [map app hd_error fst snd unconverted group_Y group_m group_d].
  now rewrite Hdate.
Qed.

(** ** The claims at concrete accounts *)

Lemma checking_withdraw_guard_order_witness :
  CheckingAccount_withdraw 600 three_withdrawals =
    (false, three_withdrawals, [msg_exceeds_limit]) /\
  CheckingAccount_withdraw 50 three_withdrawals =
    (false, three_withdrawals, [msg_max_withdrawals]) /\
  CheckingAccount_withdraw 50 (CheckingAccount_init 1 0%nat None None) =
    (false, CheckingAccount_init 1 0%nat None None, [msg_insufficient_funds]).
Proof.
  split; [| split].
  - destruct (checking_withdraw_guard_order three_withdrawals 600) as [H _].
    apply H. simpl. lia.
  - destruct (checking_withdraw_guard_order three_withdrawals 50)
      as (_ & H & _).
    apply H; simpl; lia.
  - destruct (checking_withdraw_guard_order
                (CheckingAccount_init 1 0%nat None None) 50)
      as (_ & _ & _ & H).
    apply H; simpl; unfold balance; simpl; lia.
Defined.

Lemma history_entry_is_appended_by_register_witness :
  transactions
    (history
       (as_account
          (after (register (Deposit 100) "04-11-2026 10:00:00"
                    (IsAccount (Account_init 1 0%nat)))))) =
  [ {| e_type := "Deposit"; e_amount := 100;
       e_date := "04-11-2026 10:00:00" |} ].
Proof.
  destruct (history_entry_is_appended_by_register
              (Account_init 1 0%nat) 100 (Deposit 100) "04-11-2026 10:00:00"
              (IsAccount (Account_init 1 0%nat))) as (_ & _ & H & _).
  apply H. reflexivity.
Defined.

(** The scenario of a new checking account with the defaults: a deposit of
    100 is recorded; a withdrawal of 600 is refused for the ceiling; three
    withdrawals of 30 are recorded; a fourth one of 5, within the ceiling
    and the funds, is refused for the number of withdrawals. *)
Example checking_account_scenario :
  let o0 := IsChecking (CheckingAccount_init 1 0%nat None None) in
  let o1 := after (register (Deposit 100) "t1" o0) in
  let r2 := register (Withdrawal 600) "t2" o1 in
  let o5 := apply_all [(Withdrawal 30, "t3"); (Withdrawal 30, "t4");
                       (Withdrawal 30, "t5")] (after r2) in
  let r6 := register (Withdrawal 5) "t6" o5 in
  balance (as_account o1) = 100 /\
  List.length (transactions (history (as_account o1))) = 1%nat /\
  output r2 = [msg_exceeds_limit] /\ after r2 = o1 /\
  balance (as_account o5) = 10 /\ count_withdrawals o5 = 3%nat /\
  output r6 = [msg_max_withdrawals] /\ after r6 = o5.
Proof. vm_compute. repeat split. Qed.

(** * Float amounts *)

(** ** Binary64 facts *)

Lemma Prim2SF_zero : Prim2SF 0%float = S754_zero false.
Proof. reflexivity. Qed.

Lemma Prim2SF_infinity : Prim2SF infinity = S754_infinity false.
Proof. reflexivity. Qed.




Lemma SFcompare_refl (x : spec_float) :
  SFcompare x x = match x with S754_nan => None | _ => Some Eq end.
Proof.
  destruct x as [s|s| |s m e]; try destruct s; simpl; try reflexivity;
    rewrite Z.compare_refl, ?Pos.compare_cont_refl; reflexivity.
Qed.

Lemma SFcompare_antisym (x y : spec_float) :
  SFcompare y x = option_map CompOpp (SFcompare x y).
Proof.
  destruct x as [s|s| |s m e]; destruct y as [s'|s'| |s' m' e'];
    try destruct s; try destruct s'; simpl; try reflexivity;
    rewrite (Z.compare_antisym e e'); destruct (e ?= e')%Z; simpl;
    try reflexivity;
    rewrite (Pos.compare_cont_antisym m m'); simpl;
    destruct (Pos.compare_cont Eq m' m); reflexivity.
Qed.





Lemma positive_form (a : float) :
  (0 <? a)%float = true ->
  Prim2SF a = S754_infinity false \/
  exists m e, Prim2SF a = S754_finite false m e.
Proof.
  rewrite ltb_spec, Prim2SF_zero. unfold SFltb, SFcompare.
  destruct (Prim2SF a) as [s|s| |s m e]; try destruct s; try discriminate;
    eauto.
Qed.





Lemma zero_add (x : float) : (0 <? x)%float = true -> (0 + x)%float = x.
Proof.
  intros Hx. apply Prim2SF_inj. rewrite add_spec, Prim2SF_zero.
  destruct (positive_form x Hx) as [->|(m & e & ->)]; reflexivity.
Qed.

Lemma ltb_irrefl (x : float) : (x <? x)%float = false.
Proof.
  rewrite ltb_spec. unfold SFltb. rewrite SFcompare_refl.
  destruct (Prim2SF x); reflexivity.
Qed.

Lemma is_finite_form (x : float) :
  is_finite x = true ->
  (exists s, Prim2SF x = S754_zero s) \/
  (exists s m e, Prim2SF x = S754_finite s m e).
Proof.
  unfold is_finite, is_nan, is_infinity.
  rewrite !eqb_spec, abs_spec, Prim2SF_infinity.
  destruct (Prim2SF x) as [s|s| |s m e]; eauto; intros Hx.
  - destruct s; discriminate.
  - discriminate.
Qed.

Lemma sub_self (x : float) : is_finite x = true -> (x - x)%float = 0%float.
Proof.
  intros Hx. apply Prim2SF_inj. rewrite sub_spec, Prim2SF_zero.
  destruct (is_finite_form x Hx) as [[s Hs]|(s & m & e & Hs)]; rewrite Hs.
  - destruct s; reflexivity.
  - unfold SF64sub, SFsub. rewrite Z.sub_diag. reflexivity.
Qed.

(** [not (a > b)] is [a <= b] unless one of the two is nan. *)
Lemma not_gt_is_le (a b : float) :
  is_nan a = false -> is_nan b = false ->
  negb (b <? a)%float = (a <=? b)%float.
Proof.
  unfold is_nan. rewrite !eqb_spec, ltb_spec, leb_spec.
  unfold SFeqb, SFltb, SFleb. rewrite !SFcompare_refl.
  rewrite (SFcompare_antisym (Prim2SF a) (Prim2SF b)).
  intros Ha Hb.
  destruct (Prim2SF a) as [s|s| |s m e]; try discriminate Ha;
    destruct (Prim2SF b) as [s'|s'| |s' m' e']; try discriminate Hb;
    try destruct s; try destruct s'; simpl; try reflexivity;
    destruct (Z.compare _ _); simpl; try reflexivity;
    destruct (Pos.compare_cont _ _ _); reflexivity.
Qed.

Lemma nan_compares_false (a b : float) :
  is_nan b = true -> (b <? a)%float = false /\ (a <=? b)%float = false.
Proof.
  unfold is_nan. rewrite eqb_spec, ltb_spec, leb_spec.
  unfold SFeqb, SFltb, SFleb. rewrite SFcompare_refl.
  destruct (Prim2SF b); try discriminate. intros _.
  destruct (Prim2SF a) as [s|s| |s m e]; try destruct s; split; reflexivity.
Qed.


(** ** The methods on floats *)

Ltac run_float_method :=
  cbv [F64.Account_withdraw F64.Account_deposit F64.CheckingAccount_withdraw
       F64.withdraw F64.deposit F64.history_add_transaction
       F64.add_transaction F64.register F64.make_transaction F64.super
       F64.gt zoom bind ret get put print result after output].

Lemma float_Account_deposit_eq (a : float) (self : F64.Account) :
  F64.Account_deposit a self =
  if (0 <? a)%float
  then (true, F64.set_balance self (F64._balance self + a)%float,
        [msg_deposit_ok])
  else (false, self, [msg_invalid_amount]).
Proof. run_float_method. destruct (0 <? a)%float; reflexivity. Qed.

Lemma float_Account_withdraw_eq (a : float) (self : F64.Account) :
  F64.Account_withdraw a self =
  if (F64.balance self <? a)%float
  then (false, self, [msg_insufficient_funds])
  else if (0 <? a)%float
       then (true, F64.set_balance self (F64._balance self - a)%float,
             [msg_withdrawal_ok])
       else (false, self, [msg_invalid_amount]).
Proof.
  run_float_method.
  destruct (F64.balance self <? a)%float; [reflexivity |].
  destruct (0 <? a)%float; reflexivity.
Qed.

Lemma float_set_base_same (c : F64.CheckingAccount) :
  F64.set_base c (F64.base c) = c.
Proof. destruct c; reflexivity. Qed.

Lemma float_with_account_same (o : F64.AnyAccount) :
  F64.with_account o (F64.as_account o) = o.
Proof.
  destruct o as [a | c]; simpl; [reflexivity | now rewrite float_set_base_same].
Qed.

Lemma float_as_with_account (o : F64.AnyAccount) (a : F64.Account) :
  F64.as_account (F64.with_account o a) = a.
Proof. destruct o; reflexivity. Qed.

Lemma float_deposit_eq (a : float) (o : F64.AnyAccount) :
  F64.deposit a o =
  if (0 <? a)%float
  then (true,
        F64.with_account o
          (F64.set_balance (F64.as_account o)
             (F64._balance (F64.as_account o) + a)%float),
        [msg_deposit_ok])
  else (false, o, [msg_invalid_amount]).
Proof.
  unfold F64.deposit, zoom. rewrite float_Account_deposit_eq.
  destruct (0 <? a)%float; [reflexivity | now rewrite float_with_account_same].
Qed.

Lemma float_withdraw_effect (a : float) (o : F64.AnyAccount) :
  (result (F64.withdraw a o) = false /\ after (F64.withdraw a o) = o) \/
  (result (F64.withdraw a o) = true /\
   (0 <? a)%float = true /\
   (F64.balance (F64.as_account o) <? a)%float = false /\
   after (F64.withdraw a o) =
   F64.with_account o
     (F64.set_balance (F64.as_account o)
        (F64._balance (F64.as_account o) - a)%float)).
Proof.
  destruct o as [self | self]; unfold F64.withdraw.
  - rewrite float_Account_withdraw_eq. simpl F64.as_account.
    destruct (F64.balance self <? a)%float; [left; split; reflexivity |].
    destruct (0 <? a)%float eqn:Ha; [right | left]; repeat split; reflexivity.
  - cbv [F64.CheckingAccount_withdraw bind get print ret].
    destruct (F64.gt a (F64._limit self)); [left; split; reflexivity |].
    destruct (_ >=? _)%Z; [left; split; reflexivity |].
    unfold F64.super, zoom. rewrite float_Account_withdraw_eq.
    simpl F64.as_account.
    destruct (F64.balance (F64.base self) <? a)%float;
      [left; split; simpl; now rewrite ?float_set_base_same |].
    destruct (0 <? a)%float eqn:Ha; [right | left]; repeat split;
      simpl; now rewrite ?float_set_base_same.
Qed.

Lemma float_deposit_effect (a : float) (o : F64.AnyAccount) :
  (result (F64.deposit a o) = false /\ after (F64.deposit a o) = o) \/
  (result (F64.deposit a o) = true /\
   (0 <? a)%float = true /\
   after (F64.deposit a o) =
   F64.with_account o
     (F64.set_balance (F64.as_account o)
        (F64._balance (F64.as_account o) + a)%float)).
Proof.
  rewrite float_deposit_eq.
  destruct (0 <? a)%float; [right | left]; repeat split; reflexivity.
Qed.









Lemma positive_not_nan (a : float) : (0 <? a)%float = true -> is_nan a = false.
Proof.
  intros Ha. unfold is_nan. rewrite eqb_spec. unfold SFeqb.
  rewrite SFcompare_refl.
  destruct (positive_form a Ha) as [-> | (m & e & ->)]; reflexivity.
Qed.

Lemma float_register_deposit_base (x : float) (t : string)
  (self : F64.Account) :
  (0 <? x)%float = true ->
  after (F64.register (F64.Deposit x) t (F64.IsAccount self)) =
  F64.IsAccount
    (F64.set_history (F64.set_balance self (F64._balance self + x)%float)
       {| F64.transactions :=
            (F64.transactions (F64.history self) ++
             [ {| F64.e_type := "Deposit"; F64.e_amount := x;
                  F64.e_date := t |} ])%list |}).
Proof.
  intros Hx. unfold F64.register, bind, F64.amount.
  rewrite float_deposit_eq, Hx. reflexivity.
Qed.

Lemma float_register_withdrawal_base (x : float) (t : string)
  (self : F64.Account) :
  (0 <? x)%float = true ->
  (F64.balance self <? x)%float = false ->
  after (F64.register (F64.Withdrawal x) t (F64.IsAccount self)) =
  F64.IsAccount
    (F64.set_history (F64.set_balance self (F64._balance self - x)%float)
       {| F64.transactions :=
            (F64.transactions (F64.history self) ++
             [ {| F64.e_type := "Withdrawal"; F64.e_amount := x;
                  F64.e_date := t |} ])%list |}).
Proof.
  intros Hx Hc. unfold F64.register, bind, F64.amount, F64.withdraw.
  rewrite float_Account_withdraw_eq, Hc, Hx. reflexivity.
Qed.

(** C2, as the program has it: [deposit(a)] returns [True] exactly when
    [a > 0] holds, and then the new balance is [balance + a] as Python
    computes it: that number for int amounts, the binary64 number nearest
    to it for float amounts; whenever [a > 0] is false (with [a <= 0], and
    with nan) it returns [False] and the account is the one it was, so that
    a deposit of 0 is a failure. *)
Theorem deposit_adds_as_computed
  (o : AnyAccount) (a : Z) (fo : F64.AnyAccount) (fa : float) :
  ((result (deposit a o) = true <-> 0 < a) /\
   (0 < a ->
    balance (as_account (after (deposit a o))) = balance (as_account o) + a) /\
   (a <= 0 -> result (deposit a o) = false /\ after (deposit a o) = o) /\
   (result (deposit 0 o) = false /\ after (deposit 0 o) = o)) /\
  ((result (F64.deposit fa fo) = true <-> (0 <? fa)%float = true) /\
   ((0 <? fa)%float = true ->
    F64.balance (F64.as_account (after (F64.deposit fa fo))) =
    (F64.balance (F64.as_account fo) + fa)%float) /\
   ((0 <? fa)%float = false ->
    result (F64.deposit fa fo) = false /\ after (F64.deposit fa fo) = fo) /\
   (result (F64.deposit 0 fo) = false /\ after (F64.deposit 0 fo) = fo)).
Proof.
  split; [apply deposit_succeeds_iff_positive |].
  rewrite !float_deposit_eq. unfold result, after; simpl.
  destruct (0 <? fa)%float; simpl.
  - rewrite float_as_with_account. repeat split; auto; discriminate.
  - repeat split; auto; discriminate.
Qed.

Lemma deposit_adds_as_computed_witness :
  balance (as_account (after (deposit 50 (IsAccount (Account_init 1 0%nat)))))
  = 0 + 50 /\
  F64.balance
    (F64.as_account
       (after (F64.deposit 0.25 (F64.IsAccount (F64.Account_init 1 0%nat)))))
  = (0 + 0.25)%float.
Proof.
  split.
  - apply (deposit_adds_as_computed
             (IsAccount (Account_init 1 0%nat)) 50
             (F64.IsAccount (F64.Account_init 1 0%nat)) 0.25).
    reflexivity.
  - apply (deposit_adds_as_computed
             (IsAccount (Account_init 1 0%nat)) 50
             (F64.IsAccount (F64.Account_init 1 0%nat)) 0.25).
    reflexivity.
Defined.

(** C2 as stated fails for float amounts: on a new account [deposit(1e16)]
    and then [deposit(1.0)] both return [True], and the second leaves the
    balance at 1e16: it has not grown by 1. *)
Lemma float_deposit_can_leave_the_balance :
  let r1 := F64.deposit 1e16 (F64.IsAccount (F64.Account_init 1 0%nat)) in
  let r2 := F64.deposit 1 (after r1) in
  result r1 = true /\ result r2 = true /\
  F64.balance (F64.as_account (after r1)) = 1e16%float /\
  F64.balance (F64.as_account (after r2)) = 1e16%float /\
  (F64.balance (F64.as_account (after r2))
   - F64.balance (F64.as_account (after r1)) =? 1)%float = false.
Proof. vm_compute. repeat split. Qed.

(** C3, as the program has it: on a base account with balance [b],
    [withdraw(a)] returns [True] exactly when [a > 0] holds and [a > b] does
    not, which is [0 < a <= b] unless [b] is nan (and then [a > 0] alone);
    the new balance is then
    [b - a] as Python computes it: that number for int amounts, the binary64
    number nearest to it for float amounts; otherwise it returns [False] and
    the account is the one it was. *)
Theorem base_withdraw_subtracts_as_computed
  (self : Account) (a : Z) (fself : F64.Account) (fa : float) :
  let r := withdraw a (IsAccount self) in
  let fr := F64.withdraw fa (F64.IsAccount fself) in
  ((result r = true <-> 0 < a <= balance self) /\
   (0 < a <= balance self ->
    balance (as_account (after r)) = balance self - a) /\
   (~ 0 < a <= balance self -> result r = false /\ after r = IsAccount self)) /\
  ((result fr = true <->
    (0 <? fa)%float = true /\ (F64.balance fself <? fa)%float = false) /\
   (is_nan (F64.balance fself) = false ->
    (result fr = true <->
     (0 <? fa)%float = true /\ (fa <=? F64.balance fself)%float = true)) /\
   (is_nan (F64.balance fself) = true ->
    (result fr = true <-> (0 <? fa)%float = true)) /\
   (result fr = true ->
    F64.balance (F64.as_account (after fr)) = (F64.balance fself - fa)%float) /\
   (result fr = false -> after fr = F64.IsAccount fself)).
Proof.
  cbv zeta. split; [apply base_withdraw_succeeds_iff_covered |].
  unfold F64.withdraw. rewrite float_Account_withdraw_eq.
  unfold result, after.
  destruct (F64.balance fself <? fa)%float eqn:Hc; simpl.
  - split; [| split; [| split; [| split]]].
    + split; [discriminate | intros [_ H]; discriminate H].
    + intros Hn. split; [discriminate |]. intros [Ha Hle].
      rewrite <- (not_gt_is_le fa (F64.balance fself)) in Hle
        by auto using positive_not_nan.
      rewrite Hc in Hle. discriminate Hle.
    + intros Hn. destruct (nan_compares_false fa _ Hn) as [Hlt _].
      congruence.
    + discriminate.
    + reflexivity.
  - destruct (0 <? fa)%float eqn:Ha; simpl.
    + split; [| split; [| split; [| split]]].
      * split; auto.
      * intros Hn. split; auto. intros _. split; [reflexivity |].
        rewrite <- (not_gt_is_le fa (F64.balance fself))
          by auto using positive_not_nan.
        now rewrite Hc.
      * intros _. split; auto.
      * reflexivity.
      * discriminate.
    + split; [| split; [| split; [| split]]].
      * split; [discriminate | intros [H _]; discriminate H].
      * intros Hn. split; [discriminate | intros [H _]; discriminate H].
      * intros _. split; discriminate.
      * discriminate.
      * reflexivity.
Qed.

Lemma base_withdraw_subtracts_as_computed_witness :
  balance
    (as_account
       (after (withdraw 40 (IsAccount (set_balance (Account_init 1 0%nat) 100)))))
  = 100 - 40 /\
  F64.balance
    (F64.as_account
       (after
          (F64.withdraw 0.25
             (F64.IsAccount
                (F64.set_balance (F64.Account_init 1 0%nat) 0.75)))))
  = (0.75 - 0.25)%float.
Proof.
  split.
  - apply (base_withdraw_subtracts_as_computed
             (set_balance (Account_init 1 0%nat) 100) 40
             (F64.set_balance (F64.Account_init 1 0%nat) 0.75) 0.25).
    unfold balance; simpl; lia.
  - apply (base_withdraw_subtracts_as_computed
             (set_balance (Account_init 1 0%nat) 100) 40
             (F64.set_balance (F64.Account_init 1 0%nat) 0.75) 0.25).
    reflexivity.
Defined.

(** C3 as stated fails for float amounts.  On a new account, after
    [deposit(1e16)], [withdraw(1.0)] returns [True] and the balance is still
    1e16: it has not dropped by 1.  And after [deposit(inf)] and
    [withdraw(inf)] the balance is nan, and [withdraw(5.0)] returns [True]
    although [5 <= balance] is false. *)
Lemma float_withdraw_can_miss_the_amount :
  let o1 := after (F64.deposit 1e16 (F64.IsAccount (F64.Account_init 1 0%nat))) in
  let r1 := F64.withdraw 1 o1 in
  let o2 :=
    after (F64.withdraw infinity
             (after (F64.deposit infinity
                       (F64.IsAccount (F64.Account_init 1 0%nat))))) in
  let r2 := F64.withdraw 5 o2 in
  (result r1 = true /\
   F64.balance (F64.as_account o1) = 1e16%float /\
   F64.balance (F64.as_account (after r1)) = 1e16%float) /\
  (is_nan (F64.balance (F64.as_account o2)) = true /\
   result r2 = true /\
   (5 <=? F64.balance (F64.as_account o2))%float = false).
Proof. vm_compute. repeat split. Qed.

(** C7, as the program has it: on a base account just created, applying a
    deposit of a finite [x > 0] and then a withdrawal of [x] brings the
    balance back to 0 and leaves a history of exactly two entries, the
    deposit first and the withdrawal second; for int amounts and for float
    amounts alike. *)
Theorem finite_deposit_then_withdraw_round_trip
  (n : Z) (c : CustomerRef) (x : Z) (fx : float) (t1 t2 : string) :
  0 < x ->
  (0 <? fx)%float = true ->
  is_finite fx = true ->
  let o0 := IsAccount (Account_init n c) in
  let o1 := after (make_transaction o0 (Deposit x) t1) in
  let o2 := after (make_transaction o1 (Withdrawal x) t2) in
  let f0 := F64.IsAccount (F64.Account_init n c) in
  let f1 := after (F64.make_transaction f0 (F64.Deposit fx) t1) in
  let f2 := after (F64.make_transaction f1 (F64.Withdrawal fx) t2) in
  (balance (as_account o0) = 0 /\
   balance (as_account o2) = 0 /\
   transactions (history (as_account o2)) =
     [ {| e_type := "Deposit"; e_amount := x; e_date := t1 |};
       {| e_type := "Withdrawal"; e_amount := x; e_date := t2 |} ]) /\
  (F64.balance (F64.as_account f0) = 0%float /\
   F64.balance (F64.as_account f2) = 0%float /\
   F64.transactions (F64.history (F64.as_account f2)) =
     [ {| F64.e_type := "Deposit"; F64.e_amount := fx; F64.e_date := t1 |};
       {| F64.e_type := "Withdrawal"; F64.e_amount := fx;
          F64.e_date := t2 |} ]).
Proof.
  intros Hx Hfx Hfin. cbv zeta.
  split; [now apply deposit_then_withdraw_round_trip |].
  unfold F64.make_transaction.
  rewrite float_register_deposit_base by exact Hfx.
  simpl F64._balance. rewrite zero_add by exact Hfx.
  rewrite float_register_withdrawal_base
    by (try exact Hfx; unfold F64.balance; simpl; apply ltb_irrefl).
  unfold F64.balance; simpl. rewrite sub_self by exact Hfin.
  repeat split.
Qed.

Lemma finite_deposit_then_withdraw_round_trip_witness :
  let o0 := IsAccount (Account_init 1 0%nat) in
  let o1 := after (make_transaction o0 (Deposit 100) "04-11-2026 10:00:00") in
  let o2 := after (make_transaction o1 (Withdrawal 100) "04-11-2026 10:05:00") in
  let f0 := F64.IsAccount (F64.Account_init 1 0%nat) in
  let f1 :=
    after (F64.make_transaction f0 (F64.Deposit 2.5) "04-11-2026 10:00:00") in
  let f2 :=
    after (F64.make_transaction f1 (F64.Withdrawal 2.5) "04-11-2026 10:05:00") in
  (balance (as_account o0) = 0 /\
   balance (as_account o2) = 0 /\
   transactions (history (as_account o2)) =
     [ {| e_type := "Deposit"; e_amount := 100;
          e_date := "04-11-2026 10:00:00" |};
       {| e_type := "Withdrawal"; e_amount := 100;
          e_date := "04-11-2026 10:05:00" |} ]) /\
  (F64.balance (F64.as_account f0) = 0%float /\
   F64.balance (F64.as_account f2) = 0%float /\
   F64.transactions (F64.history (F64.as_account f2)) =
     [ {| F64.e_type := "Deposit"; F64.e_amount := 2.5;
          F64.e_date := "04-11-2026 10:00:00" |};
       {| F64.e_type := "Withdrawal"; F64.e_amount := 2.5;
          F64.e_date := "04-11-2026 10:05:00" |} ]).
Proof.
  apply (finite_deposit_then_withdraw_round_trip 1 0%nat 100 2.5);
    reflexivity.
Defined.

(** C7 as stated fails at [x = float('inf')], which is [> 0]: the deposit
    and the withdrawal both succeed, two entries are recorded, and the
    balance is [inf - inf], which is nan and not 0. *)
Lemma infinite_round_trip_ends_at_nan :
  let f0 := F64.IsAccount (F64.Account_init 1 0%nat) in
  let f1 :=
    after (F64.make_transaction f0 (F64.Deposit infinity) "04-11-2026 10:00:00") in
  let f2 :=
    after (F64.make_transaction f1 (F64.Withdrawal infinity)
             "04-11-2026 10:05:00") in
  (0 <? infinity)%float = true /\
  List.length (F64.transactions (F64.history (F64.as_account f2))) = 2%nat /\
  is_nan (F64.balance (F64.as_account f2)) = true /\
  (F64.balance (F64.as_account f2) =? 0)%float = false.
Proof. vm_compute. repeat split. Qed.



(** * Further properties of the accounts *)

(** ** What a successful operation shows *)

Lemma account_operation_success (t : Transaction) (o : AnyAccount) :
  result (account_operation t o) = true ->
  0 < amount t /\
  (is_withdrawal t = true -> amount t <= balance (as_account o)).
Proof.
  intros Hr. destruct t as [a | a]; simpl in *.
  - destruct (withdraw_effect a o) as [[Hf _] | (_ & Ha & Hs)]; [congruence |].
    split; [lia | intros _; lia].
  - destruct (deposit_effect a o) as [[Hf _] | (_ & Ha & Hs)]; [congruence |].
    split; [lia | discriminate].
Qed.

(** ** The balance and the history agree *)

Lemma ledger_app_one (l : list Entry) (e : Entry) :
  ledger {| transactions := (l ++ [e])%list |} =
  ledger {| transactions := l |} + signed_amount e.
Proof.
  unfold ledger; simpl. induction l as [| x rest IH]; simpl; [lia |].
  rewrite IH. lia.
Qed.

Lemma ledger_transactions (h : TransactionHistory) :
  ledger h = ledger {| transactions := transactions h |}.
Proof. reflexivity. Qed.

Lemma register_keeps_ledger_gap (t : Transaction) (now : string)
  (o : AnyAccount) :
  balance (as_account (after (register t now o))) -
  ledger (history (as_account (after (register t now o)))) =
  balance (as_account o) - ledger (history (as_account o)).
Proof.
  destruct (result (account_operation t o)) eqn:Hr.
  - destruct (register_success t now o Hr) as [Hb Hh].
    rewrite Hb.
    rewrite (ledger_transactions (history (as_account (after _)))), Hh.
    rewrite ledger_app_one, <- ledger_transactions.
    destruct t as [a | a]; simpl in Hr |- *.
    + destruct (withdraw_effect a o) as [[Hf _] | (_ & Ha & Hs)];
        [congruence |].
      rewrite Hs, balance_with_set_balance.
      unfold balance, signed_amount; simpl. lia.
    + destruct (deposit_effect a o) as [[Hf _] | (_ & Ha & Hs)];
        [congruence |].
      rewrite Hs, balance_with_set_balance.
      unfold balance, signed_amount; simpl. lia.
  - now rewrite register_failure.
Qed.

Lemma apply_all_keeps_ledger_gap (ts : list (Transaction * string)) :
  forall o : AnyAccount,
    balance (as_account (apply_all ts o)) -
    ledger (history (as_account (apply_all ts o))) =
    balance (as_account o) - ledger (history (as_account o)).
Proof.
  induction ts as [| [t now] rest IH]; intros o; simpl; [reflexivity |].
  rewrite IH. apply register_keeps_ledger_gap.
Qed.

(** What [register] does on floats: nothing when the operation fails;
    when it succeeds the balance is moved by the amount and the entry is
    appended. *)
Lemma float_register_cases (t : F64.Transaction) (now : string)
  (o : F64.AnyAccount) :
  (result (F64.account_operation t o) = false /\
   after (F64.register t now o) = o) \/
  (result (F64.account_operation t o) = true /\
   (0 <? F64.amount t)%float = true /\
   after (F64.register t now o) =
   F64.with_account o
     (F64.set_history
        (F64.set_balance (F64.as_account o)
           (match t with
            | F64.Withdrawal a => F64._balance (F64.as_account o) - a
            | F64.Deposit a => F64._balance (F64.as_account o) + a
            end)%float)
        {| F64.transactions :=
             (F64.transactions (F64.history (F64.as_account o)) ++
              [ {| F64.e_type := F64.class_name t;
                   F64.e_amount := F64.amount t;
                   F64.e_date := now |} ])%list |})).
Proof.
  destruct t as [a | a];
    unfold F64.register, F64.account_operation, bind, F64.amount.
  - destruct (float_withdraw_effect a o) as [[Hr Hs] | (Hr & Ha & _ & Hs)];
      destruct (F64.withdraw a o) as [[ok o'] out];
      cbn in Hr, Hs; subst ok o'.
    + left. split; reflexivity.
    + right. split; [reflexivity |]. split; [exact Ha |].
      destruct o; reflexivity.
  - destruct (float_deposit_effect a o) as [[Hr Hs] | (Hr & Ha & Hs)];
      destruct (F64.deposit a o) as [[ok o'] out];
      cbn in Hr, Hs; subst ok o'.
    + left. split; reflexivity.
    + right. split; [reflexivity |]. split; [exact Ha |].
      destruct o; reflexivity.
Qed.

Lemma float_register_keeps_replay (t : F64.Transaction) (now : string)
  (o : F64.AnyAccount) :
  F64.balance (F64.as_account o) = F64.replay (F64.history (F64.as_account o)) ->
  F64.balance (F64.as_account (after (F64.register t now o))) =
  F64.replay (F64.history (F64.as_account (after (F64.register t now o)))).
Proof.
  intros Hb.
  destruct (float_register_cases t now o) as [[_ ->] | (_ & _ & ->)];
    [exact Hb |].
  rewrite float_as_with_account.
  unfold F64.replay, F64.balance, F64.history in *.
  cbn [F64.set_history F64._history F64.transactions F64._balance
       F64.set_balance].
  rewrite fold_left_app. cbn [fold_left]. rewrite <- Hb.
  destruct t; reflexivity.
Qed.

Lemma float_apply_all_keeps_replay (ts : list (F64.Transaction * string)) :
  forall o : F64.AnyAccount,
    F64.balance (F64.as_account o) =
    F64.replay (F64.history (F64.as_account o)) ->
    F64.balance (F64.as_account (F64.apply_all ts o)) =
    F64.replay (F64.history (F64.as_account (F64.apply_all ts o))).
Proof.
  induction ts as [| [t now] rest IH]; intros o Ho; simpl; [exact Ho |].
  apply IH, float_register_keeps_replay, Ho.
Qed.

(** X1: when every operation on an account goes through a transaction, as
    the menu does it, the balance is what the history records.  With int
    amounts it is the sum of the recorded deposits minus the sum of the
    recorded withdrawals.  With float amounts it is the result of adding
    the recorded deposits and subtracting the recorded withdrawals one by
    one from 0, in the order of recording. *)
Theorem balance_is_ledger_of_history
  (n : Z) (c : CustomerRef) (l w : option Z)
  (ts : list (Transaction * string))
  (fl : option float) (fts : list (F64.Transaction * string)) :
  let plain := apply_all ts (IsAccount (Account_init n c)) in
  let checking := apply_all ts (IsChecking (CheckingAccount_init n c l w)) in
  let fplain := F64.apply_all fts (F64.IsAccount (F64.Account_init n c)) in
  let fchecking :=
    F64.apply_all fts (F64.IsChecking (F64.CheckingAccount_init n c fl w)) in
  (balance (as_account plain) = ledger (history (as_account plain)) /\
   balance (as_account checking) = ledger (history (as_account checking))) /\
  (F64.balance (F64.as_account fplain) =
   F64.replay (F64.history (F64.as_account fplain)) /\
   F64.balance (F64.as_account fchecking) =
   F64.replay (F64.history (F64.as_account fchecking))).
Proof.
  cbv zeta. split; split.
  - pose proof (apply_all_keeps_ledger_gap ts (IsAccount (Account_init n c))) as H.
    simpl in H. unfold balance, ledger in *; simpl in H. lia.
  - pose proof (apply_all_keeps_ledger_gap ts
                  (IsChecking (CheckingAccount_init n c l w))) as H.
    simpl in H. unfold balance, ledger in *; simpl in H. lia.
  - apply float_apply_all_keeps_replay. reflexivity.
  - apply float_apply_all_keeps_replay. reflexivity.
Qed.

(** The order of the float entries matters: 1, 1e16 and 1 deposited in two
    orders give two balances. *)
Example float_balance_depends_on_order :
  let o := F64.IsAccount (F64.Account_init 1 0%nat) in
  let one := F64.apply_all [(F64.Deposit 1, "t1"); (F64.Deposit 1e16, "t2");
                            (F64.Deposit 1, "t3")] o in
  let other := F64.apply_all [(F64.Deposit 1, "t1"); (F64.Deposit 1, "t2");
                              (F64.Deposit 1e16, "t3")] o in
  (F64.balance (F64.as_account one) =? F64.balance (F64.as_account other))%float
  = false.
Proof. vm_compute. reflexivity. Qed.

(** ** What can be found in a history *)

Lemma limits_account_operation (t : Transaction) (o : AnyAccount) :
  limits (after (account_operation t o)) = limits o.
Proof.
  destruct (account_operation_effect t o) as [[_ Hs] | (_ & b & Hs & _)];
    rewrite Hs; [reflexivity | apply limits_with_account].
Qed.

Lemma limits_register (t : Transaction) (now : string) (o : AnyAccount) :
  limits (after (register t now o)) = limits o.
Proof.
  rewrite register_eq. cbv zeta.
  destruct (result (account_operation t o)); rewrite after_triple;
    [rewrite limits_with_account |]; apply limits_account_operation.
Qed.

Lemma checking_withdraw_success (a : Z) (c : CheckingAccount) :
  result (withdraw a (IsChecking c)) = true ->
  a <= _limit c /\
  Z.of_nat (count_withdrawals (IsChecking c)) < _withdrawal_limit c.
Proof.
  unfold withdraw. rewrite CheckingAccount_withdraw_eq, super_withdraw_eq.
  unfold count_withdrawals; simpl as_account.
  destruct (Z.gtb_spec a (_limit c)); [discriminate |].
  destruct (Z.geb_spec
              (Z.of_nat (List.length (withdrawal_entries (history (base c)))))
              (_withdrawal_limit c)); [discriminate |].
  intros _. lia.
Qed.

Lemma register_keeps_amounts_positive (t : Transaction) (now : string)
  (o : AnyAccount) :
  amounts_positive o -> amounts_positive (after (register t now o)).
Proof.
  unfold amounts_positive. intros Hpos.
  destruct (result (account_operation t o)) eqn:Hr.
  - destruct (register_success t now o Hr) as [_ Hh]. rewrite Hh.
    apply Forall_app. split; [exact Hpos |].
    constructor; [| constructor].
    destruct (account_operation_success t o Hr) as [Ha _]. exact Ha.
  - now rewrite register_failure.
Qed.

Lemma apply_all_keeps_amounts_positive (ts : list (Transaction * string)) :
  forall o, amounts_positive o -> amounts_positive (apply_all ts o).
Proof.
  induction ts as [| [t now] rest IH]; intros o Ho; simpl; [exact Ho |].
  apply IH, register_keeps_amounts_positive, Ho.
Qed.

(** X2: an entry is recorded only for an amount above zero: after any
    sequence of applied transactions on a new account, every entry of the
    history has a positive amount. *)
Theorem recorded_amounts_are_positive
  (n : Z) (c : CustomerRef) (l w : option Z)
  (ts : list (Transaction * string)) :
  Forall (fun e => 0 < e_amount e)
    (transactions
       (history (as_account (apply_all ts (IsAccount (Account_init n c)))))) /\
  Forall (fun e => 0 < e_amount e)
    (transactions
       (history
          (as_account
             (apply_all ts (IsChecking (CheckingAccount_init n c l w)))))).
Proof.
  split; apply apply_all_keeps_amounts_positive; constructor.
Qed.

Lemma register_keeps_within_limits (L M : Z) (t : Transaction)
  (now : string) (o : AnyAccount) :
  within_limits L M o -> within_limits L M (after (register t now o)).
Proof.
  intros (Hl & Hc & Hf). unfold within_limits.
  rewrite limits_register, count_withdrawals_register.
  split; [exact Hl |].
  destruct (result (account_operation t o)) eqn:Hr.
  - destruct (register_success t now o Hr) as [_ Hh]. rewrite Hh.
    destruct t as [a | a]; simpl in *.
    + destruct o as [self | self]; [discriminate |].
      injection Hl as HL HM.
      destruct (checking_withdraw_success a self Hr) as [Ha Hn].
      split; [lia |].
      apply Forall_app. split; [exact Hf |].
      constructor; [| constructor]. simpl. intros _. lia.
    + split; [lia |].
      apply Forall_app. split; [exact Hf |].
      constructor; [| constructor]. simpl. discriminate.
  - rewrite andb_false_r, (register_failure t now o Hr).
    split; [lia | exact Hf].
Qed.

Lemma apply_all_keeps_within_limits (L M : Z)
  (ts : list (Transaction * string)) :
  forall o, within_limits L M o -> within_limits L M (apply_all ts o).
Proof.
  induction ts as [| [t now] rest IH]; intros o Ho; simpl; [exact Ho |].
  apply IH, register_keeps_within_limits, Ho.
Qed.

(** X3: on a checking account created with ceiling [L] and maximum [M],
    whatever transactions are applied, the history never holds more than
    [M] withdrawals (none when [M] is negative) and never a withdrawal
    above [L]. *)
Theorem checking_history_within_limits
  (n : Z) (c : CustomerRef) (l w : option Z)
  (ts : list (Transaction * string)) :
  let new := CheckingAccount_init n c l w in
  let o := apply_all ts (IsChecking new) in
  Z.of_nat (count_withdrawals o) <= Z.max 0 (_withdrawal_limit new) /\
  Forall (fun e => e_type e = "Withdrawal" -> e_amount e <= _limit new)
         (transactions (history (as_account o))).
Proof.
  cbv zeta.
  apply (apply_all_keeps_within_limits
           (_limit (CheckingAccount_init n c l w))
           (_withdrawal_limit (CheckingAccount_init n c l w))).
  repeat split; simpl; [lia | constructor].
Qed.

(** ** What can be found in a float history *)

Lemma float_checking_withdraw_success (a : float) (c : F64.CheckingAccount) :
  result (F64.withdraw a (F64.IsChecking c)) = true ->
  F64.gt a (F64._limit c) = false /\
  Z.of_nat (F64.count_withdrawals (F64.IsChecking c)) < F64._withdrawal_limit c.
Proof.
  unfold F64.withdraw, F64.count_withdrawals. simpl F64.as_account.
  cbv [F64.CheckingAccount_withdraw bind get print ret].
  destruct (F64.gt a (F64._limit c)); [discriminate |].
  destruct (Z.geb_spec
              (Z.of_nat
                 (List.length
                    (F64.withdrawal_entries (F64.history (F64.base c)))))
              (F64._withdrawal_limit c)); [discriminate |].
  intros _. split; [reflexivity | lia].
Qed.

Lemma float_limits_with_account (o : F64.AnyAccount) (a : F64.Account) :
  F64.limits (F64.with_account o a) = F64.limits o.
Proof. destruct o; reflexivity. Qed.

Lemma float_withdrawal_entries_app (l : list F64.Entry) (e : F64.Entry) :
  List.length
    (F64.withdrawal_entries {| F64.transactions := (l ++ [e])%list |}) =
  (List.length (F64.withdrawal_entries {| F64.transactions := l |}) +
   (if String.eqb (F64.e_type e) Withdrawal_name then 1 else 0))%nat.
Proof.
  unfold F64.withdrawal_entries; simpl. rewrite filter_app, length_app.
  simpl. now destruct (String.eqb (F64.e_type e) Withdrawal_name).
Qed.

Lemma float_register_keeps_amounts_positive (t : F64.Transaction)
  (now : string) (o : F64.AnyAccount) :
  F64.amounts_positive o ->
  F64.amounts_positive (after (F64.register t now o)).
Proof.
  unfold F64.amounts_positive. intros Hpos.
  destruct (float_register_cases t now o) as [[_ ->] | (_ & Ha & ->)];
    [exact Hpos |].
  rewrite float_as_with_account. simpl.
  apply Forall_app. split; [exact Hpos |].
  constructor; [exact Ha | constructor].
Qed.

Lemma float_register_keeps_within_limits (L : float) (M : Z)
  (t : F64.Transaction) (now : string) (o : F64.AnyAccount) :
  F64.within_limits L M o ->
  F64.within_limits L M (after (F64.register t now o)).
Proof.
  intros (Hl & Hc & Hf).
  destruct (float_register_cases t now o) as [[_ ->] | (Hr & _ & ->)];
    [repeat split; assumption |].
  unfold F64.within_limits, F64.count_withdrawals.
  rewrite float_limits_with_account, float_as_with_account.
  cbn [F64.history F64.set_history F64._history F64.transactions].
  rewrite float_withdrawal_entries_app.
  split; [exact Hl |].
  unfold F64.count_withdrawals in Hc.
  destruct (F64.as_account o) as [b nu br cu [entries]] eqn:Hacc.
  cbn [F64.history F64._history F64.transactions F64.e_type] in *.
  destruct t as [a | a]; cbn [F64.class_name F64.amount F64.account_operation] in *.
  - destruct o as [self | self]; [discriminate |].
    injection Hl as HL HM.
    destruct (float_checking_withdraw_success a self Hr) as [Ha Hn].
    unfold F64.count_withdrawals in Hn. simpl F64.as_account in Hn, Hacc.
    rewrite Hacc in Hn. cbn [F64.history F64._history] in Hn.
    split; [simpl; lia |].
    apply Forall_app. split; [exact Hf |].
    constructor; [| constructor]. simpl. intros _. congruence.
  - split; [simpl; lia |].
    apply Forall_app. split; [exact Hf |].
    constructor; [| constructor]. simpl. discriminate.
Qed.

Lemma float_apply_all_keeps (P : F64.AnyAccount -> Prop)
  (ts : list (F64.Transaction * string)) :
  (forall t now o, P o -> P (after (F64.register t now o))) ->
  forall o, P o -> P (F64.apply_all ts o).
Proof.
  intros Hstep. induction ts as [| [t now] rest IH]; intros o Ho; simpl;
    [exact Ho | apply IH, Hstep, Ho].
Qed.

(** X21: with float amounts too, an entry is recorded only for an amount
    above zero, and on a checking account created with ceiling [L] and
    maximum [M] the history never holds more than [M] withdrawals (none
    when [M] is negative) and never a withdrawal of an amount above [L]. *)
Theorem float_history_within_limits
  (n : Z) (c : CustomerRef) (fl : option float) (w : option Z)
  (fts : list (F64.Transaction * string)) :
  let new := F64.CheckingAccount_init n c fl w in
  let plain := F64.apply_all fts (F64.IsAccount (F64.Account_init n c)) in
  let checking := F64.apply_all fts (F64.IsChecking new) in
  Forall (fun e => (0 <? F64.e_amount e)%float = true)
         (F64.transactions (F64.history (F64.as_account plain))) /\
  Forall (fun e => (0 <? F64.e_amount e)%float = true)
         (F64.transactions (F64.history (F64.as_account checking))) /\
  Z.of_nat (F64.count_withdrawals checking)
  <= Z.max 0 (F64._withdrawal_limit new) /\
  Forall (fun e => F64.e_type e = "Withdrawal" ->
                   (F64._limit new <? F64.e_amount e)%float = false)
         (F64.transactions (F64.history (F64.as_account checking))).
Proof.
  cbv zeta.
  split; [| split].
  - apply (float_apply_all_keeps F64.amounts_positive);
      [apply float_register_keeps_amounts_positive | constructor].
  - apply (float_apply_all_keeps F64.amounts_positive);
      [apply float_register_keeps_amounts_positive | constructor].
  - apply (float_apply_all_keeps
             (F64.within_limits
                (F64._limit (F64.CheckingAccount_init n c fl w))
                (F64._withdrawal_limit (F64.CheckingAccount_init n c fl w))));
      [apply float_register_keeps_within_limits |].
    repeat split; simpl; [lia | constructor].
Qed.

(** ** The history only grows *)

Lemma step_appends (o : AnyAccount) (c : Call) :
  exists suffix,
    transactions (history (as_account (step o c))) =
    (transactions (history (as_account o)) ++ suffix)%list.
Proof.
  destruct c as [a | a | t now]; simpl.
  - exists []. rewrite app_nil_r.
    destruct (deposit_effect a o) as [[_ Hs] | (_ & _ & Hs)]; rewrite Hs;
      [reflexivity | now rewrite history_with_set_balance].
  - exists []. rewrite app_nil_r.
    destruct (withdraw_effect a o) as [[_ Hs] | (_ & _ & Hs)]; rewrite Hs;
      [reflexivity | now rewrite history_with_set_balance].
  - destruct (result (account_operation t o)) eqn:Hr.
    + exists [entry_of t now]. now apply register_success.
    + exists []. now rewrite register_failure, app_nil_r.
Qed.

(** X4: the history is append-only: after any sequence of calls the old
    entries are still there, in the same order, at the front. *)
Theorem history_is_append_only (cs : list Call) (o : AnyAccount) :
  exists suffix,
    transactions (history (as_account (run cs o))) =
    (transactions (history (as_account o)) ++ suffix)%list.
Proof.
  unfold run. revert o. induction cs as [| c rest IH]; intros o; simpl.
  - exists []. now rewrite app_nil_r.
  - destruct (IH (step o c)) as [s2 H2].
    destruct (step_appends o c) as [s1 H1].
    exists (s1 ++ s2)%list. now rewrite H2, H1, app_assoc.
Qed.

(** ** Messages *)

Lemma messages_differ :
  msg_insufficient_funds <> msg_withdrawal_ok /\
  msg_invalid_amount <> msg_withdrawal_ok /\
  msg_exceeds_limit <> msg_withdrawal_ok /\
  msg_max_withdrawals <> msg_withdrawal_ok /\
  msg_invalid_amount <> msg_deposit_ok.
Proof. repeat split; intros H; vm_compute in H; discriminate H. Qed.

(** X5: a call of [deposit] or [withdraw] prints exactly one message, and
    the message is the one of success exactly when the call returns
    [True]. *)
Theorem one_message_per_call (a : Z) (o : AnyAccount) :
  (exists m, output (deposit a o) = [m] /\
             (m = msg_deposit_ok <-> result (deposit a o) = true)) /\
  (exists m, output (withdraw a o) = [m] /\
             (m = msg_withdrawal_ok <-> result (withdraw a o) = true)).
Proof.
  destruct messages_differ as (H1 & H2 & H3 & H4 & H5).
  split.
  - rewrite deposit_eq. destruct (a >? 0); eexists; (split; [reflexivity |]);
      unfold result; simpl; split; congruence.
  - destruct o as [self | self]; unfold withdraw.
    + rewrite Account_withdraw_eq.
      destruct (a >? balance self); [| destruct (a >? 0)];
        eexists; (split; [reflexivity |]);
        unfold result; simpl; split; congruence.
    + rewrite CheckingAccount_withdraw_eq, super_withdraw_eq.
      destruct (a >? _limit self);
        [| destruct (_ >=? _);
           [| destruct (a >? balance (base self)); [| destruct (a >? 0)]]];
        eexists; (split; [reflexivity |]);
        unfold result; simpl; split; congruence.
Qed.

(** ** Once the maximum is reached *)

Lemma limit_reached_withdraw (a : Z) (o : AnyAccount) :
  limit_reached o ->
  result (withdraw a o) = false /\ after (withdraw a o) = o.
Proof.
  destruct o as [self | self]; simpl; [contradiction |].
  unfold count_withdrawals; simpl as_account. intros Hm.
  rewrite CheckingAccount_withdraw_eq.
  destruct (a >? _limit self); [split; reflexivity |].
  destruct (Z.geb_spec
              (Z.of_nat (List.length (withdrawal_entries (history (base self)))))
              (_withdrawal_limit self)); [split; reflexivity | lia].
Qed.

Lemma limit_reached_by (o o' : AnyAccount) :
  limits o' = limits o ->
  count_withdrawals o' = count_withdrawals o ->
  limit_reached o -> limit_reached o'.
Proof.
  destruct o as [a | c], o' as [a' | c']; unfold limit_reached;
    try discriminate; try contradiction.
  intros Hl Hc. simpl in Hl. injection Hl as _ HM. now rewrite HM, Hc.
Qed.

Lemma limit_reached_step (o : AnyAccount) (c : Call) :
  limit_reached o ->
  limit_reached (step o c) /\
  count_withdrawals (step o c) = count_withdrawals o /\
  balance (as_account o) <= balance (as_account (step o c)).
Proof.
  intros Hm. destruct c as [a | a | t now]; simpl.
  - destruct (deposit_effect a o) as [[_ Hs] | (_ & Ha & Hs)]; rewrite Hs.
    + repeat split; auto; lia.
    + assert (Hc : count_withdrawals
                     (with_account o
                        (set_balance (as_account o) (_balance (as_account o) + a)))
                   = count_withdrawals o)
        by (unfold count_withdrawals; now rewrite history_with_set_balance).
      split; [| split; [exact Hc |]].
      * apply (limit_reached_by o); auto using limits_with_account.
      * rewrite balance_with_set_balance. unfold balance. lia.
  - destruct (limit_reached_withdraw a o Hm) as [_ Hs]. rewrite Hs.
    repeat split; auto; lia.
  - destruct t as [a | a].
    + rewrite register_failure
        by (simpl; now destruct (limit_reached_withdraw a o Hm)).
      repeat split; auto; lia.
    + pose proof (count_withdrawals_register (Deposit a) now o) as Hc.
      cbn [is_withdrawal andb] in Hc. rewrite Nat.add_0_r in Hc.
      split; [| split; [exact Hc |]].
      * apply (limit_reached_by o); auto using limits_register.
      * destruct (result (account_operation (Deposit a) o)) eqn:Hr.
        -- destruct (register_success _ now o Hr) as [Hbal _]. rewrite Hbal.
           cbn [account_operation amount].
           destruct (deposit_effect a o) as [[_ Hs] | (_ & Ha & Hs)];
             rewrite Hs; [lia |].
           rewrite balance_with_set_balance. unfold balance. lia.
        -- rewrite register_failure by exact Hr. lia.
Qed.

(** X7: when the recorded withdrawals of a checking account have reached
    its maximum, they stay so for good: whatever is called afterwards, no
    further withdrawal is recorded and the balance never goes down. *)
Theorem limit_reached_is_permanent (self : CheckingAccount) (cs : list Call) :
  _withdrawal_limit self <= Z.of_nat (count_withdrawals (IsChecking self)) ->
  count_withdrawals (run cs (IsChecking self)) =
    count_withdrawals (IsChecking self) /\
  balance (base self) <= balance (as_account (run cs (IsChecking self))).
Proof.
  intros Hm.
  assert (H : forall o, limit_reached o ->
                count_withdrawals (run cs o) = count_withdrawals o /\
                balance (as_account o) <= balance (as_account (run cs o))).
  { unfold run. induction cs as [| c rest IH]; intros o Ho; simpl.
    - split; [reflexivity | lia].
    - destruct (limit_reached_step o c Ho) as (Ho' & Hc & Hb).
      destruct (IH _ Ho') as [Hc' Hb']. split; [congruence | lia]. }
  apply (H (IsChecking self)). exact Hm.
Qed.

Lemma limit_reached_is_permanent_witness :
  let cs := [CallRegister (Withdrawal 50) "04-11-2026 09:04:00";
             CallWithdraw 20; CallDeposit 5;
             CallRegister (Deposit 10) "04-11-2026 09:05:00"] in
  count_withdrawals (run cs (IsChecking three_withdrawals)) =
    count_withdrawals (IsChecking three_withdrawals) /\
  balance (base three_withdrawals) <=
    balance (as_account (run cs (IsChecking three_withdrawals))).
Proof.
  apply (limit_reached_is_permanent three_withdrawals). vm_compute. discriminate.
Defined.

(** * Properties of the menu *)

(** ** Looking a customer up *)

Lemma filter_enumerate {A} (p : A -> bool) (l : list A) :
  forall k,
    match filter (fun x => p (snd x)) (combine (seq k (List.length l)) l) with
    | (i, c) :: _ =>
        (k <= i)%nat /\ nth_error l (i - k) = Some c /\ p c = true /\
        forall j c', (j < i - k)%nat -> nth_error l j = Some c' -> p c' = false
    | [] => forall c, In c l -> p c = false
    end.
Proof.
  induction l as [| x rest IH]; intros k; simpl.
  - intros c [].
  - destruct (p x) eqn:Hx.
    + rewrite Nat.sub_diag. repeat split; auto. intros j c' Hj. lia.
    + specialize (IH (S k)).
      destruct (filter _ (combine (seq (S k) (List.length rest)) rest))
        as [| [i c] tl].
      * intros c [Hc | Hc]; [now subst | auto].
      * destruct IH as (Hk & Hn & Hp & Hfirst).
        replace (i - k)%nat with (S (i - S k)) by lia.
        repeat split; auto; try lia.
        intros [| j] c' Hj Hc'; simpl in Hc'; [congruence |].
        apply (Hfirst j); [lia | exact Hc'].
Qed.

Lemma filter_customer_spec (ssn' : string)
  (customers : list IndividualCustomer) :
  match Menu.filter_customer ssn' customers with
  | Some (i, c) =>
      nth_error customers i = Some c /\ ssn c = ssn' /\
      forall j c', (j < i)%nat -> nth_error customers j = Some c' ->
                   ssn c' <> ssn'
  | None => forall c, In c customers -> ssn c <> ssn'
  end.
Proof.
  unfold Menu.filter_customer, enumerate.
  pose proof (filter_enumerate (fun c => String.eqb (ssn c) ssn') customers 0)
    as H.
  cbv beta in H.
  destruct (filter _ (combine (seq 0 (List.length customers)) customers))
    as [| [i c] tl].
  - intros c Hc. apply String.eqb_neq. now apply H.
  - destruct H as (_ & Hn & Hp & Hfirst). rewrite Nat.sub_0_r in *.
    repeat split; [exact Hn | now apply String.eqb_eq |].
    intros j c' Hj Hc'. apply String.eqb_neq. now apply (Hfirst j).
Qed.

(** X8: [filter_customer] gives the first customer of the list that has
    the SSN, and [None] exactly when no customer of the list has it. *)
Theorem filter_customer_first (ssn' : string)
  (customers : list IndividualCustomer) :
  match Menu.filter_customer ssn' customers with
  | Some (i, c) =>
      nth_error customers i = Some c /\ ssn c = ssn' /\
      forall j c', (j < i)%nat -> nth_error customers j = Some c' ->
                   ssn c' <> ssn'
  | None => forall c, In c customers -> ssn c <> ssn'
  end.
Proof. apply filter_customer_spec. Qed.

(** ** Rules for commands *)

Lemma spec_conseq {A} (m : Cli A) (P P' : Session -> Prop)
  (Q Q' : Session -> A -> Session -> Prop)
  (E E' : Session -> Raised -> Session -> Prop) :
  spec m P' Q' E' ->
  (forall s, P s -> P' s) ->
  (forall s a s', P s -> Q' s a s' ->
                  (List.length (stdin s') <= List.length (stdin s))%nat ->
                  Q s a s') ->
  (forall s e s', P s -> E' s e s' -> E s e s') ->
  spec m P Q E.
Proof.
  intros Hm HP HQ HE s Hs. specialize (Hm s (HP s Hs)).
  destruct (m s) as [[a | e |] s']; auto.
  destruct Hm as [Hq Hl]. split; auto.
Qed.

(** A fact about the session at the start can be used in the proof. *)
Lemma spec_at {A} (m : Cli A) (P : Session -> Prop)
  (Q : Session -> A -> Session -> Prop)
  (E : Session -> Raised -> Session -> Prop) :
  (forall s0, P s0 -> spec m (fun s => s = s0) Q E) ->
  spec m P Q E.
Proof. intros Hm s Hs. now apply (Hm s Hs). Qed.

Lemma spec_ret {A} (a : A) (P : Session -> Prop)
  (Q : Session -> A -> Session -> Prop)
  (E : Session -> Raised -> Session -> Prop) :
  (forall s, P s -> Q s a s) -> spec (cli_ret a) P Q E.
Proof. intros HQ s Hs. simpl. split; auto. Qed.

Lemma spec_raise {A} (e : Raised) (P : Session -> Prop)
  (Q : Session -> A -> Session -> Prop)
  (E : Session -> Raised -> Session -> Prop) :
  (forall s, P s -> E s e s) -> spec (@cli_raise A e) P Q E.
Proof. intros HE s Hs. simpl. auto. Qed.

Lemma spec_bind {A B} (m : Cli A) (k : A -> Cli B) (P : Session -> Prop)
  (Q1 : Session -> A -> Session -> Prop)
  (Q : Session -> B -> Session -> Prop)
  (E : Session -> Raised -> Session -> Prop) :
  spec m P Q1 E ->
  (forall s0 a, P s0 ->
     spec (k a) (Q1 s0 a) (fun _ b s2 => Q s0 b s2) (fun _ e s2 => E s0 e s2)) ->
  spec (cli_bind m k) P Q E.
Proof.
  intros Hm Hk s Hs. unfold cli_bind. specialize (Hm s Hs).
  destruct (m s) as [[a | e |] s1]; auto.
  destruct Hm as [Hq Hl]. specialize (Hk s a Hs s1 Hq).
  destruct (k a s1) as [[b | e |] s2]; auto.
  destruct Hk as [Hq2 Hl2]. split; [exact Hq2 | lia].
Qed.

Lemma spec_session (P : Session -> Prop)
  (Q : Session -> Session -> Session -> Prop)
  (E : Session -> Raised -> Session -> Prop) :
  (forall s, P s -> Q s s s) -> spec session P Q E.
Proof. intros HQ s Hs. simpl. split; auto. Qed.

Lemma spec_print (line : string) (P : Session -> Prop)
  (Q : Session -> unit -> Session -> Prop)
  (E : Session -> Raised -> Session -> Prop) :
  (forall s, P s -> Q s tt (write [line] s)) -> spec (cli_print line) P Q E.
Proof. intros HQ s Hs. simpl. split; auto. Qed.

Lemma spec_input (prompt : string) (P : Session -> Prop)
  (Q : Session -> string -> Session -> Prop)
  (E : Session -> Raised -> Session -> Prop) :
  (forall s line s', P s -> same_objects s s' ->
                     stdin s = line :: stdin s' -> Q s line s') ->
  (forall s s', P s -> same_objects s s' -> E s EOFError s') ->
  spec (input prompt) P Q E.
Proof.
  intros HQ HE s Hs. unfold input.
  destruct (stdin s) as [| line rest] eqn:Hin.
  - apply HE; [exact Hs | split; reflexivity].
  - split; [| simpl; lia].
    apply HQ; [exact Hs | split; reflexivity | exact Hin].
Qed.

Lemma while_true_spec {A} (body : Cli (option A)) (Inv : Session -> Prop)
  (Q : A -> Session -> Prop) (E : Raised -> Session -> Prop) :
  spec body Inv
       (fun s r s' =>
          match r with
          | Some a => Q a s'
          | None => Inv s' /\ (List.length (stdin s') < List.length (stdin s))%nat
          end)
       (fun _ e s' => E e s') ->
  forall fuel s,
    Inv s -> (List.length (stdin s) < fuel)%nat ->
    match while_true fuel body s with
    | (Returned a, s') =>
        Q a s' /\ (List.length (stdin s') <= List.length (stdin s))%nat
    | (Raise e, s') => E e s'
    | (Diverged, _) => False
    end.
Proof.
  intros Hb. induction fuel as [| n IH]; intros s Hs Hf; [lia |].
  simpl. specialize (Hb s Hs).
  destruct (body s) as [[[a |] | e |] s1]; auto.
  destruct Hb as [[Hinv Hlt] _].
  specialize (IH s1 Hinv ltac:(lia)).
  destruct (while_true n body s1) as [[a | e |] s2]; auto.
  destruct IH as [Hq Hl]. split; [exact Hq | lia].
Qed.

(** A loop whose body reads a line each time it goes round again returns
    or raises: it does not run out of rounds. *)
Lemma spec_loop {A} (body : Cli (option A)) (Inv : Session -> Prop)
  (Q : A -> Session -> Prop) (E : Raised -> Session -> Prop) :
  spec body Inv
       (fun s r s' =>
          match r with
          | Some a => Q a s'
          | None => Inv s' /\ (List.length (stdin s') < List.length (stdin s))%nat
          end)
       (fun _ e s' => E e s') ->
  spec (loop body) Inv (fun _ a s' => Q a s') (fun _ e s' => E e s').
Proof.
  intros Hb s Hs. unfold loop.
  apply (while_true_spec body Inv Q E Hb); [exact Hs | lia].
Qed.

Lemma spec_input_keep (prompt : string) (P : Session -> Prop)
  (E : Session -> Raised -> Session -> Prop) :
  (forall s s', P s -> same_objects s s' -> E s EOFError s') ->
  spec (input prompt) P
       (fun s line s' =>
          P s /\ same_objects s s' /\ stdin s = line :: stdin s')
       E.
Proof. intros HE. apply spec_input; auto. Qed.

Lemma spec_print_keep (line : string) (P : Session -> Prop)
  (E : Session -> Raised -> Session -> Prop) :
  spec (cli_print line) P
       (fun s _ s' => P s /\ same_objects s s' /\ stdin s' = stdin s) E.
Proof. apply spec_print. intros s Hs. repeat split; auto. Qed.

Lemma spec_session_keep (P : Session -> Prop)
  (E : Session -> Raised -> Session -> Prop) :
  spec session P (fun s r s' => P s /\ r = s /\ s' = s) E.
Proof. apply spec_session. auto. Qed.

(** ** Sessions in order *)

Lemma same_objects_refl (s : Session) : same_objects s s.
Proof. split; reflexivity. Qed.

Lemma same_objects_trans (s1 s2 s3 : Session) :
  same_objects s1 s2 -> same_objects s2 s3 -> same_objects s1 s3.
Proof. intros [H1 H2] [H3 H4]. split; congruence. Qed.

Lemma well_formed_same (s s' : Session) :
  same_objects s s' -> well_formed s -> well_formed s'.
Proof. intros [Hc Ha]. unfold well_formed. now rewrite Hc, Ha. Qed.

Lemma only_eof_same (s0 s s' : Session) :
  well_formed s -> same_objects s s' -> only_eof s0 EOFError s'.
Proof. intros Hw Hs. split; [reflexivity | now apply (well_formed_same s)]. Qed.

Create HintDb menu.
#[local] Hint Resolve same_objects_refl only_eof_same : menu.

(** ** Choosing an account *)

Section MenuProperties.

Context `{Python}.

Ltac flatten :=
  repeat match goal with
         | H : _ /\ _ |- _ => destruct H
         | H : same_objects _ _ |- _ => destruct H
         | H : only_eof _ _ _ |- _ => destruct H
         | H : no_raise _ _ _ |- _ => destruct H
         end;
  subst.

Ltac objects :=
  flatten;
  match goal with
  | |- same_objects _ _ => split; simpl; congruence
  | |- only_eof _ _ _ =>
      split; [reflexivity |];
      match goal with
      | Hw : well_formed ?s |- well_formed ?s' =>
          apply (well_formed_same s s'); [split; simpl; congruence | exact Hw]
      end
  | |- well_formed ?s' =>
      match goal with
      | Hw : well_formed ?s |- _ =>
          apply (well_formed_same s s'); [split; simpl; congruence | exact Hw]
      end
  end.

Ltac reads := eapply spec_bind; [apply spec_input_keep; intros; objects | cbv beta].
Ltac prints := eapply spec_bind; [apply spec_print_keep | cbv beta].
Ltac looks := eapply spec_bind; [apply spec_session_keep | cbv beta].

Lemma print_accounts_spec (l : list (nat * AccountRef)) :
  forall P : Session -> Prop,
  (forall s, P s ->
     Forall (fun x => nth_error (main_accounts s) (snd x) <> None) l) ->
  spec (Menu.print_accounts l) P
       (fun s _ s' => P s /\ same_objects s s' /\ stdin s' = stdin s)
       no_raise.
Proof.
  induction l as [| [i r] rest IH]; intros P Hval; simpl.
  - apply spec_ret. intros s Hs. auto with menu.
  - eapply spec_bind.
    + instantiate (1 := fun s o s' => P s /\ s' = s).
      intros s Hs. unfold Menu.account_at.
      specialize (Hval s Hs). inversion Hval as [| x xs Hr Hrest]; subst.
      simpl in Hr. destruct (nth_error (main_accounts s) r); [| congruence].
      auto.
    + cbv beta. intros s0 o Hs0. prints. intros s1 [] [Hp ->].
      eapply spec_conseq.
      * apply (IH (fun s => P s0 /\ same_objects s0 s /\ stdin s = stdin s0)).
        intros s (Hp0 & [Hc Ha] & Hi). specialize (Hval s0 Hp0).
        inversion Hval; subst. now rewrite Ha.
      * intros s (Hq & Hsame & Hi). flatten. repeat split; auto; congruence.
      * cbv beta. intros s a s' Hpre (Hq & Hsame & Hi) _. flatten.
        repeat split; auto; congruence.
      * cbv beta. intros s e s' _ [].
Qed.

Lemma print_accounts_keep (l : list (nat * AccountRef))
  (P : Session -> Prop) (E : Session -> Raised -> Session -> Prop) :
  (forall s, P s ->
     Forall (fun x => nth_error (main_accounts s) (snd x) <> None) l) ->
  spec (Menu.print_accounts l) P
       (fun s _ s' => P s /\ same_objects s s' /\ stdin s' = stdin s) E.
Proof.
  intros Hval. eapply spec_conseq;
    [apply (print_accounts_spec l P Hval) | auto | auto |].
  intros s e s' _ [].
Qed.

Lemma listed_accounts_exist (s : Session) (j : nat) (c : IndividualCustomer) :
  well_formed s -> nth_error (main_customers s) j = Some c ->
  Forall (fun x => nth_error (main_accounts s) (snd x) <> None)
         (enumerate (accounts c)).
Proof.
  intros (_ & Hc & _) Hj. destruct (Hc j c Hj) as [_ Hrefs].
  apply Forall_forall. intros [i r] Hin. simpl.
  apply in_combine_r in Hin. destruct (Hrefs r Hin) as (o & Ho & _).
  congruence.
Qed.

Lemma get_account_spec :
  spec Menu.get_account well_formed
       (fun s r s' => same_objects s s' /\ chosen_from s r)
       only_eof.
Proof.
  unfold Menu.get_account.
  reads. intros s0 ssn' Hw0.
  looks. intros s1 s1' (Hw & Hsame & Hin).
  apply spec_at. intros s2 ((_ & _ & _) & -> & ->).
  assert (Hcs : main_customers s1 = main_customers s0) by (now destruct Hsame).
  rewrite Hcs.
  pose proof (filter_customer_spec ssn' (main_customers s0)) as Hspec.
  destruct (Menu.filter_customer ssn' (main_customers s0))
    as [[j c] |] eqn:Hf.
  - destruct Hspec as (Hj & Hssn & _).
    assert (Hchosen : forall i, In i (accounts c) -> chosen_from s0 (Some i)).
    { intros i Hi. exists ssn', j, c. rewrite Hin. auto. }
    pose proof (listed_accounts_exist s0 j c Hw0 Hj) as Hlisted.
    destruct (accounts c) as [| only [| second others]] eqn:Hacc.
    + prints. intros s3 [] ->. apply spec_ret.
      intros s4 (_ & Hs & _). split; [objects | exact I].
    + apply spec_ret. intros s3 ->. split; [exact Hsame |].
      apply Hchosen. now left.
    + prints. intros s3 [] ->.
      eapply spec_bind.
      * apply print_accounts_keep.
        intros s (_ & [_ Ha] & _). destruct Hsame as [_ Ha1].
        rewrite Ha, Ha1. exact Hlisted.
      * cbv beta. intros s4 [] (_ & Hs4 & _).
        eapply spec_conseq.
        -- apply (spec_loop _ (fun s => same_objects s0 s)
                    (fun r s' => same_objects s0 s' /\ chosen_from s0 r)
                    (only_eof s0)).
           reads. intros s5 text Hs5.
           destruct (int_text text) as [account_option |].
           ++ destruct ((1 <=? account_option)%Z &&
                        (account_option <=?
                         Z.of_nat (List.length (only :: second :: others)))%Z)
                eqn:Hrange.
              ** apply andb_prop in Hrange. destruct Hrange as [Hlo Hhi].
                 apply Z.leb_le in Hlo, Hhi.
                 destruct (nth_error (only :: second :: others)
                                     (Z.to_nat (account_option - 1)))
                   as [r |] eqn:Hnth.
                 --- apply spec_ret. intros s6 (Hs6 & Hs56 & _).
                     split; [objects |].
                     apply Hchosen. now apply nth_error_In in Hnth.
                 --- apply nth_error_None in Hnth. lia.
              ** prints. intros s6 [] (Hs6 & Hs56 & Hin6).
                 apply spec_ret. intros s7 (_ & Hs67 & Hin7).
                 split; [objects |]. rewrite Hin7, Hin6. simpl. lia.
           ++ prints. intros s6 [] (Hs6 & Hs56 & Hin6).
              apply spec_ret. intros s7 (_ & Hs67 & Hin7).
              split; [objects |]. rewrite Hin7, Hin6. simpl. lia.
        -- intros s (_ & Hs & _). objects.
        -- cbv beta. intros s r s' _ Hq _. exact Hq.
        -- cbv beta. intros s e s' _ He. exact He.
  - prints. intros s3 [] ->. apply spec_ret.
    intros s4 (_ & Hs & _). split; [objects | exact I].
Qed.

(** ** Applying a transaction from the menu *)

Lemma replace_at_length {A} (i : nat) (x : A) (l : list A) :
  List.length (replace_at i x l) = List.length l.
Proof.
  revert i. induction l as [| y rest IH]; intros [| i]; simpl; auto.
Qed.

Lemma nth_error_replace_at_same {A} (i : nat) (x y : A) (l : list A) :
  nth_error l i = Some y -> nth_error (replace_at i x l) i = Some x.
Proof.
  revert i. induction l as [| z rest IH]; intros [| i]; simpl;
    try discriminate; auto.
Qed.

Lemma nth_error_replace_at_other {A} (i j : nat) (x : A) (l : list A) :
  i <> j -> nth_error (replace_at i x l) j = nth_error l j.
Proof.
  revert i j. induction l as [| z rest IH]; intros [| i] [| j] Hij; simpl;
    auto; try congruence.
Qed.

Lemma register_keeps_identity (t : Transaction) (now : string)
  (o : AnyAccount) :
  let o' := after (register t now o) in
  number (as_account o') = number (as_account o) /\
  branch (as_account o') = branch (as_account o) /\
  customer (as_account o') = customer (as_account o).
Proof.
  cbv zeta. rewrite register_eq. cbv zeta.
  destruct (account_operation_effect t o) as [[Hr Hs] | (Hr & b & Hs & _)];
    rewrite Hr, after_triple, Hs; [auto |].
  rewrite !as_with_account. auto.
Qed.

Lemma register_keeps_account_ok (customers : list IndividualCustomer)
  (i : nat) (t : Transaction) (now : string) (o : AnyAccount) :
  account_ok customers i o ->
  account_ok customers i (after (register t now o)).
Proof.
  intros (Hn & Hb & Hl & Hp & Hc).
  destruct (register_keeps_identity t now o) as (Hn' & Hb' & Hc').
  unfold account_ok. rewrite Hn', Hb', Hc'.
  split; [exact Hn |]. split; [exact Hb |].
  split; [now apply register_keeps_within_limits |].
  split; [now apply register_keeps_amounts_positive | exact Hc].
Qed.

Lemma well_formed_replace (s s' : Session) (r : AccountRef)
  (t : Transaction) (now : string) (o : AnyAccount) :
  well_formed s ->
  nth_error (main_accounts s) r = Some o ->
  main_customers s' = main_customers s ->
  main_accounts s' =
    replace_at r (after (register t now o)) (main_accounts s) ->
  well_formed s'.
Proof.
  intros (Hnd & Hcs & Has) Hr Hc Ha. unfold well_formed. rewrite Hc, Ha.
  split; [exact Hnd |]. split.
  - intros j c Hj. destruct (Hcs j c Hj) as [Hd Hrefs]. split; [exact Hd |].
    intros r' Hr'. destruct (Hrefs r' Hr') as (o' & Ho' & Hcust).
    destruct (Nat.eq_dec r r') as [<- | Hne].
    + exists (after (register t now o)).
      split; [now apply (nth_error_replace_at_same r _ o) |].
      destruct (register_keeps_identity t now o) as (_ & _ & Hc').
      rewrite Hc'. congruence.
    + exists o'. now rewrite nth_error_replace_at_other.
  - intros i o' Hi. destruct (Nat.eq_dec r i) as [<- | Hne].
    + rewrite (nth_error_replace_at_same r _ o) in Hi by exact Hr.
      injection Hi as <-. apply register_keeps_account_ok. now apply Has.
    + rewrite nth_error_replace_at_other in Hi by exact Hne. now apply Has.
Qed.

Lemma apply_transaction_spec (r : AccountRef) (t : Transaction)
  (P : Session -> Prop) (E : Session -> Raised -> Session -> Prop) :
  (forall s, P s -> nth_error (main_accounts s) r <> None) ->
  spec (Menu.apply_transaction r t) P
       (fun s _ s' =>
          P s /\ main_customers s' = main_customers s /\
          stdin s' = stdin s /\
          exists o, nth_error (main_accounts s) r = Some o /\
                    main_accounts s' =
                    replace_at r (after (register t (now_at (applied s)) o))
                               (main_accounts s))
       E.
Proof.
  intros Hval s Hs. unfold Menu.apply_transaction, cli_bind, Menu.account_at.
  specialize (Hval s Hs).
  destruct (nth_error (main_accounts s) r) as [o |] eqn:Ho; [| congruence].
  simpl. split; [| lia]. repeat split; auto. exists o. auto.
Qed.

Lemma chosen_exists (s : Session) (r : AccountRef) :
  well_formed s -> chosen_from s (Some r) ->
  exists o, nth_error (main_accounts s) r = Some o.
Proof.
  intros (_ & Hcs & _) (ssn' & j & c & _ & Hf & Hin).
  pose proof (filter_customer_spec ssn' (main_customers s)) as Hspec.
  rewrite Hf in Hspec. destruct Hspec as (Hj & _).
  destruct (Hcs j c Hj) as [_ Hrefs].
  destruct (Hrefs r Hin) as (o & Ho & _). eauto.
Qed.

Lemma transaction_command_spec (prompt refusal : string)
  (make : Z -> Transaction) :
  spec (account <~ Menu.get_account ;;
        match account with
        | None => cli_ret tt
        | Some r =>
            loop
              (text <~ input prompt ;;
               match float_ text with
               | Some amount =>
                   if amount >? 0 then
                     Menu.apply_transaction r (make amount) ;;>
                     cli_ret (Some tt)
                   else cli_print refusal ;;> cli_ret None
               | None =>
                   cli_print (nl ++ "@@@ Invalid input. Enter a number. @@@") ;;>
                   cli_ret None
               end)
        end)
       well_formed
       (fun s _ s' => one_transaction make s s' /\ well_formed s')
       only_eof.
Proof.
  eapply spec_bind; [apply get_account_spec |]. cbv beta.
  intros s0 account Hw0.
  destruct account as [r |].
  - apply spec_at. intros s1 [Hs1 Hchosen].
    destruct (chosen_exists s0 r Hw0 Hchosen) as [o Ho].
    eapply spec_conseq.
    + apply (spec_loop _ (fun s => same_objects s0 s)
               (fun _ s' => one_transaction make s0 s' /\ well_formed s')
               (only_eof s0)).
      reads. intros s2 text Hs2.
      destruct (float_ text) as [amount |].
      * destruct (Z.gtb_spec amount 0) as [Hpos | Hnon].
        -- eapply spec_bind.
           ++ apply apply_transaction_spec.
              intros s (_ & [_ Ha] & _). destruct Hs2 as [_ Ha2].
              rewrite Ha, Ha2. congruence.
           ++ cbv beta. intros s3 [] (_ & Hs23 & _).
              apply spec_ret.
              intros s4 (_ & Hc4 & _ & o' & Ho' & Ha4).
              destruct Hs2 as [Hc2 Ha2]. destruct Hs23 as [Hc3 Ha3].
              rewrite Ha3, Ha2 in Ho', Ha4.
              assert (o' = o) by congruence. subst o'.
              split.
              ** split; [congruence |]. right.
                 exists r, o, amount. eexists. eauto.
              ** apply (well_formed_replace s0 s4 r (make amount)
                          (now_at (applied s3)) o Hw0 Ho);
                   [congruence | exact Ha4].
        -- prints. intros s3 [] (Hs3 & Hs23 & Hin3).
           apply spec_ret. intros s4 (_ & Hs34 & Hin4).
           split; [objects |]. rewrite Hin4, Hin3. simpl. lia.
      * prints. intros s3 [] (Hs3 & Hs23 & Hin3).
        apply spec_ret. intros s4 (_ & Hs34 & Hin4).
        split; [objects |]. rewrite Hin4, Hin3. simpl. lia.
    + intros s ->. exact Hs1.
    + cbv beta. intros s a s' _ Hq _. exact Hq.
    + cbv beta. intros s e s' _ He. exact He.
  - apply spec_ret. intros s1 [[Hc Ha] _].
    split; [split; [exact Hc | now left] | objects].
Qed.

Lemma deposit_spec :
  spec Menu.deposit well_formed
       (fun s _ s' => one_transaction Deposit s s' /\ well_formed s')
       only_eof.
Proof. apply transaction_command_spec. Qed.

Lemma withdraw_spec :
  spec Menu.withdraw well_formed
       (fun s _ s' => one_transaction Withdrawal s s' /\ well_formed s')
       only_eof.
Proof. apply transaction_command_spec. Qed.

(** ** New customers *)

Lemma well_formed_add_customer (s s' : Session) (c : IndividualCustomer) :
  well_formed s ->
  (forall c0, In c0 (main_customers s) -> ssn c0 <> ssn c) ->
  validate_date (date_of_birth c) = inr tt ->
  accounts c = [] ->
  main_customers s' = (main_customers s ++ [c])%list ->
  main_accounts s' = main_accounts s ->
  well_formed s'.
Proof.
  intros (Hnd & Hcs & Has) Hnew Hdate Hacc Hc Ha.
  unfold well_formed. rewrite Hc, Ha. split; [| split].
  - rewrite map_app. apply NoDup_app; [exact Hnd | | ].
    + simpl. constructor; [intros [] | constructor].
    + intros x Hx [Hx' | []]. apply in_map_iff in Hx.
      destruct Hx as (c0 & Hc0 & Hin). apply (Hnew c0 Hin). congruence.
  - intros j c1 Hj.
    destruct (Nat.lt_ge_cases j (List.length (main_customers s))) as [Hlt | Hge].
    + rewrite nth_error_app1 in Hj by exact Hlt. now apply Hcs.
    + rewrite nth_error_app2 in Hj by exact Hge.
      destruct (j - List.length (main_customers s))%nat as [| k];
        simpl in Hj; [| now destruct k].
      injection Hj as <-. split; [exact Hdate |].
      rewrite Hacc. intros r [].
  - intros i o Hi. destruct (Has i o Hi) as (Hn & Hb & Hl & Hp & c0 & Hc0 & Hin).
    repeat (split; [assumption |]).
    exists c0. split; [| exact Hin].
    rewrite nth_error_app1; [exact Hc0 |].
    apply nth_error_Some. congruence.
Qed.

Lemma create_customer_spec :
  spec Menu.create_customer well_formed
       (fun s _ s' => customer_added s s' /\ well_formed s')
       only_eof.
Proof.
  unfold Menu.create_customer.
  reads. intros s0 ssn' Hw0.
  looks. intros s1 s1' (_ & Hs01 & Hin).
  apply spec_at. intros s2 ((_ & _ & _) & -> & ->).
  assert (Hcs : main_customers s1 = main_customers s0) by (now destruct Hs01).
  rewrite Hcs.
  pose proof (filter_customer_spec ssn' (main_customers s0)) as Hspec.
  destruct (Menu.filter_customer ssn' (main_customers s0)) as [[j c] |].
  - apply spec_print. intros s ->. destruct Hs01 as [Hc Ha].
    split; [split; [exact Ha | now left] |].
    apply (well_formed_same s0); [split; simpl; congruence | exact Hw0].
  - reads. intros s2 name ->.
    eapply spec_bind.
    + eapply spec_conseq.
      * apply (spec_loop _ (fun s => same_objects s0 s)
                 (fun d s' => same_objects s0 s' /\ validate_date d = inr tt)
                 (only_eof s0)).
        reads. intros s3 d Hs3.
        destruct (validate_date d) as [[e] | []] eqn:Hd.
        -- prints. intros s4 [] (_ & Hs34 & Hin4).
           apply spec_ret. intros s5 (_ & Hs45 & Hin5).
           split; [objects |]. rewrite Hin5, Hin4. simpl. lia.
        -- apply spec_ret. intros s4 (_ & Hs34 & _). split; [objects | exact Hd].
      * intros s (_ & Hs & _). objects.
      * cbv beta. intros s d s' _ Hq _. exact Hq.
      * cbv beta. intros s e s' _ He. exact He.
    + cbv beta. intros s3 d _.
      eapply spec_bind; [apply spec_input_keep; intros; objects |]. cbv beta.
      intros s4 address [Hs04 Hd].
      unfold IndividualCustomer_init. rewrite Hd.
      intros s5 (_ & Hs45 & _). unfold cli_bind, cli_print. simpl.
      split; [| lia].
      destruct Hs04 as [Hc4 Ha4]. destruct Hs45 as [Hc5 Ha5].
      assert (Hadd : customer_added s0
                (write [nl ++ "=== Customer created successfully! ==="]
                   {| main_customers :=
                        (main_customers s5 ++
                         [{| address := address; accounts := [];
                             name := name; date_of_birth := d;
                             ssn := ssn' |}])%list;
                      main_accounts := main_accounts s5;
                      stdin := stdin s5;
                      stdout := stdout s5;
                      applied := applied s5 |})).
      { split; simpl; [congruence |]. right. eexists.
        split; [rewrite Hc5, Hc4; reflexivity |]. simpl.
        rewrite Hin. repeat split; auto. }
      split; [exact Hadd |].
      destruct Hadd as [Ha [Hsame | (c & Hc & _ & Hnew & Hdate & Hacc)]].
      * simpl in Hsame. exfalso. rewrite Hc5, Hc4 in Hsame.
        apply (f_equal (@List.length _)) in Hsame.
        rewrite length_app in Hsame. simpl in Hsame. lia.
      * now apply (well_formed_add_customer s0 _ c).
Qed.

(** ** New accounts *)

Lemma map_replace_at {A B} (f : A -> B) (i : nat) (x y : A) (l : list A) :
  nth_error l i = Some y -> f x = f y ->
  map f (replace_at i x l) = map f l.
Proof.
  revert i. induction l as [| z rest IH]; intros [| i] Hi Hf; simpl in *;
    try discriminate.
  - injection Hi as ->. now rewrite Hf.
  - now rewrite (IH i).
Qed.

Lemma new_account_ok (customers : list IndividualCustomer)
  (j : CustomerRef) (c : IndividualCustomer) (i : nat) :
  nth_error customers j = Some c -> In i (accounts c) ->
  account_ok customers i (new_account ClsCheckingAccount j (Z.of_nat i + 1)).
Proof.
  intros Hj Hin. unfold account_ok; simpl.
  split; [reflexivity |]. split; [reflexivity |].
  split; [repeat split; simpl; [lia | constructor] |].
  split; [constructor |].
  exists c. auto.
Qed.

Lemma well_formed_add_account (s s' : Session) (j : CustomerRef)
  (c : IndividualCustomer) :
  well_formed s ->
  nth_error (main_customers s) j = Some c ->
  main_accounts s' =
    (main_accounts s ++
     [new_account ClsCheckingAccount j
        (Z.of_nat (List.length (main_accounts s)) + 1)])%list ->
  main_customers s' =
    replace_at j (add_account c (List.length (main_accounts s)))
               (main_customers s) ->
  well_formed s'.
Proof.
  intros (Hnd & Hcs & Has) Hj Ha Hc.
  set (r := List.length (main_accounts s)) in *.
  unfold well_formed. rewrite Hc, Ha. split; [| split].
  - now rewrite (map_replace_at ssn j _ c).
  - intros j' c' Hj'. destruct (Nat.eq_dec j j') as [<- | Hne].
    + rewrite (nth_error_replace_at_same j _ c) in Hj' by exact Hj.
      injection Hj' as <-. destruct (Hcs j c Hj) as [Hd Hrefs].
      split; [exact Hd |]. simpl. intros r' Hr'.
      apply in_app_or in Hr'. destruct Hr' as [Hold | [<- | []]].
      * destruct (Hrefs r' Hold) as (o & Ho & Hcust). exists o.
        split; [| exact Hcust].
        rewrite nth_error_app1; [exact Ho |].
        apply nth_error_Some. congruence.
      * eexists. split.
        -- rewrite nth_error_app2 by (unfold r; lia).
           unfold r. rewrite Nat.sub_diag. reflexivity.
        -- reflexivity.
    + rewrite nth_error_replace_at_other in Hj' by exact Hne.
      destruct (Hcs j' c' Hj') as [Hd Hrefs]. split; [exact Hd |].
      intros r' Hr'. destruct (Hrefs r' Hr') as (o & Ho & Hcust). exists o.
      split; [| exact Hcust].
      rewrite nth_error_app1; [exact Ho |].
      apply nth_error_Some. congruence.
  - intros i o Hi.
    destruct (Nat.lt_ge_cases i r) as [Hlt | Hge].
    + rewrite nth_error_app1 in Hi by exact Hlt.
      destruct (Has i o Hi)
        as (Hn & Hb & Hl & Hp & c0 & Hc0 & Hin).
      repeat (split; [assumption |]).
      destruct (Nat.eq_dec j (customer (as_account o))) as [Heq | Hne].
      * exists (add_account c r). rewrite <- Heq.
        split; [now apply (nth_error_replace_at_same j _ c) |].
        simpl. apply in_or_app. left.
        rewrite <- Heq in Hc0. assert (c0 = c) by congruence.
        subst c0. exact Hin.
      * exists c0. split; [| exact Hin].
        now rewrite nth_error_replace_at_other.
    + rewrite nth_error_app2 in Hi by exact Hge.
      fold r in Hi.
      destruct (i - r)%nat as [| k] eqn:Hk; simpl in Hi;
        [| destruct k; discriminate Hi].
      injection Hi as <-. assert (i = r) by lia. subst i.
      apply (new_account_ok _ j (add_account c r)).
      * now apply (nth_error_replace_at_same j _ c).
      * simpl. apply in_or_app. right. now left.
Qed.

Lemma create_account_spec (n : Z) :
  spec (Menu.create_account n)
       (fun s => well_formed s /\
                 n = Z.of_nat (List.length (main_accounts s)) + 1)
       (fun s _ s' => account_added n s s' /\ well_formed s')
       only_eof.
Proof.
  unfold Menu.create_account.
  reads. intros s0 ssn' [Hw0 Hn].
  looks. intros s1 s1' (_ & Hs01 & Hin).
  apply spec_at. intros s2 ((_ & _ & _) & -> & ->).
  destruct Hs01 as [Hc1 Ha1]. rewrite Hc1.
  pose proof (filter_customer_spec ssn' (main_customers s0)) as Hspec.
  destruct (Menu.filter_customer ssn' (main_customers s0))
    as [[j c] |] eqn:Hf.
  - destruct Hspec as (Hj & _).
    intros s ->. unfold cli_bind, cli_print. simpl. split; [| lia].
    assert (Hadd : account_added n s0
              (write [nl ++ "=== Account created successfully! ==="]
                 {| main_customers :=
                      replace_at j
                        (add_account c (List.length (main_accounts s1)))
                        (main_customers s1);
                    main_accounts :=
                      (main_accounts s1 ++
                       [new_account ClsCheckingAccount j n])%list;
                    stdin := stdin s1;
                    stdout := stdout s1;
                    applied := applied s1 |})).
    { right. exists ssn', j, c. rewrite Hin, Hf. simpl.
      rewrite Ha1, Hc1. auto. }
    split; [exact Hadd |].
    apply (well_formed_add_account s0 _ j c Hw0 Hj); simpl;
      rewrite ?Ha1, ?Hc1; congruence.
  - apply spec_print. intros s ->.
    split; [left; split; simpl; congruence |].
    apply (well_formed_same s0); [split; simpl; congruence | exact Hw0].
Qed.

(** ** Commands that only print *)

Lemma account_at_spec (r : AccountRef) (P : Session -> Prop)
  (E : Session -> Raised -> Session -> Prop) :
  (forall s, P s -> nth_error (main_accounts s) r <> None) ->
  spec (Menu.account_at r) P
       (fun s o s' => P s /\ s' = s /\ nth_error (main_accounts s) r = Some o)
       E.
Proof.
  intros Hval s Hs. unfold Menu.account_at. specialize (Hval s Hs).
  destruct (nth_error (main_accounts s) r); [auto | congruence].
Qed.

Lemma display_statement_spec :
  spec Menu.display_statement well_formed
       (fun s _ s' => same_objects s s') only_eof.
Proof.
  unfold Menu.display_statement.
  eapply spec_bind; [apply get_account_spec |]. cbv beta.
  intros s0 account Hw0. destruct account as [r |].
  - apply spec_at. intros s1 [Hs1 Hchosen].
    destruct (chosen_exists s0 r Hw0 Hchosen) as [o Ho].
    eapply spec_bind.
    + apply account_at_spec. intros s Hs. subst s. destruct Hs1 as [_ Ha].
      rewrite Ha. congruence.
    + cbv beta. intros s2 o' Hs2. subst s2.
      prints. intros s3 [] (_ & Hs3 & _). subst s3.
      prints. intros s4 [] (_ & Hs34 & _).
      prints. intros s5 [] (_ & Hs45 & _).
      apply spec_print. intros s6 (_ & Hs56 & _). objects.
  - apply spec_ret. intros s1 [Hs1 _]. exact Hs1.
Qed.

Lemma print_all_spec (l : list AnyAccount) :
  forall P : Session -> Prop,
  (forall s, P s ->
     Forall (fun o => nth_error (main_customers s) (customer (as_account o))
                      <> None) l) ->
  spec (Menu.print_all l) P
       (fun s _ s' => P s /\ same_objects s s' /\ stdin s' = stdin s)
       no_raise.
Proof.
  induction l as [| o rest IH]; intros P Hval; simpl.
  - apply spec_ret. intros s Hs. auto with menu.
  - prints. intros s0 [] Hs0.
    eapply spec_bind.
    + instantiate (1 := fun s text s' =>
                          (P s0 /\ same_objects s0 s /\ stdin s = stdin s0)
                          /\ s' = s).
      intros s Hs. destruct o as [a | c]; simpl; [auto |].
      unfold cli_bind, Menu.customer_at.
      destruct Hs as (Hp & [Hc Ha] & Hi).
      specialize (Hval s0 Hp). inversion Hval as [| x xs Hr Hrest]; subst.
      simpl in Hr. rewrite Hc.
      destruct (nth_error (main_customers s0) (customer (base c)));
        [| congruence].
      simpl. repeat split; auto.
    + cbv beta. intros s1 text _. prints. intros s2 [] [Hp ->].
      eapply spec_conseq.
      * apply (IH (fun s => P s0 /\ same_objects s0 s /\ stdin s = stdin s0)).
        intros s (Hp0 & [Hc Ha] & Hi). specialize (Hval s0 Hp0).
        inversion Hval; subst. now rewrite Hc.
      * intros s (Hq & Hsame & Hi). flatten. repeat split; auto; congruence.
      * cbv beta. intros s a s' Hpre (Hq & Hsame & Hi) _. flatten.
        repeat split; auto; congruence.
      * cbv beta. intros s e s' _ [].
Qed.

Lemma list_accounts_spec :
  spec Menu.list_accounts well_formed
       (fun s _ s' => same_objects s s') only_eof.
Proof.
  unfold Menu.list_accounts.
  looks. intros s0 s0' Hw0. apply spec_at. intros s1 (_ & Hr & Hs1).
  subst s0' s1.
  eapply spec_conseq.
  - apply (print_all_spec (main_accounts s0) (fun s => s = s0)).
    intros s Hs. subst s. apply Forall_forall. intros o Ho.
    apply In_nth_error in Ho. destruct Ho as [i Hi].
    destruct Hw0 as (_ & _ & Has).
    destruct (Has i o Hi) as (_ & _ & _ & _ & c & Hc & _).
    congruence.
  - auto.
  - cbv beta. intros s a s' Hs (_ & Hsame & _) _. now subst s.
  - cbv beta. intros s e s' _ [].
Qed.

(** ** The loop of [main] *)

(** A command of the menu followed by the next round: the line of the menu
    has been read, and the command puts nothing back. *)
Lemma round_of {A} (cmd : Cli A) (s0 : Session) (line : string) :
  spec cmd well_formed (fun _ _ s' => well_formed s') only_eof ->
  spec (cmd ;;> cli_ret (@None unit))
       (fun s => well_formed s0 /\ same_objects s0 s /\
                 stdin s0 = line :: stdin s)
       (fun _ r s' =>
          match r with
          | Some _ => well_formed s'
          | None =>
              well_formed s' /\
              (List.length (stdin s') < List.length (stdin s0))%nat
          end)
       (fun _ e s' => only_eof s0 e s').
Proof.
  intros Hcmd s1 (Hw0 & Hs01 & Hin). unfold cli_bind, cli_ret.
  assert (Hw1 : well_formed s1) by (now apply (well_formed_same s0)).
  specialize (Hcmd s1 Hw1).
  destruct (cmd s1) as [[a | e |] s2]; auto.
  destruct Hcmd as [Hw2 Hlen]. rewrite Hin. simpl.
  split; [split; [exact Hw2 | lia] | lia].
Qed.

Lemma keeps_order {A} (cmd : Cli A) (P : Session -> Prop)
  (Q : Session -> A -> Session -> Prop) :
  spec cmd P (fun s a s' => Q s a s' /\ well_formed s') only_eof ->
  (forall s, well_formed s -> P s) ->
  spec cmd well_formed (fun _ _ s' => well_formed s') only_eof.
Proof.
  intros Hcmd HP. eapply spec_conseq; [exact Hcmd | exact HP | |].
  - cbv beta. intros s a s' _ [_ Hw] _. exact Hw.
  - auto.
Qed.

Lemma keeps_objects {A} (cmd : Cli A) :
  spec cmd well_formed (fun s _ s' => same_objects s s') only_eof ->
  spec cmd well_formed (fun _ _ s' => well_formed s') only_eof.
Proof.
  intros Hcmd. eapply spec_conseq; [exact Hcmd | auto | | auto].
  cbv beta. intros s a s' Hw Hs _. now apply (well_formed_same s).
Qed.

Lemma numbered_create_account_spec :
  spec (s <~ session ;;
        Menu.create_account (Z.of_nat (List.length (main_accounts s)) + 1))
       well_formed (fun _ _ s' => well_formed s') only_eof.
Proof.
  looks. intros s0 s0' Hw0. apply spec_at. intros s1 (_ & Hr & Hs1).
  subst s0' s1.
  eapply spec_conseq; [apply create_account_spec | | |].
  - intros s Hs. subst s. auto.
  - cbv beta. intros s a s' _ [_ Hw] _. exact Hw.
  - cbv beta. intros s e s' _ He. exact He.
Qed.

Lemma main_round_spec :
  spec Menu.main_round well_formed
       (fun s r s' =>
          match r with
          | Some _ => well_formed s'
          | None =>
              well_formed s' /\
              (List.length (stdin s') < List.length (stdin s))%nat
          end)
       only_eof.
Proof.
  unfold Menu.main_round, Menu.menu.
  reads. intros s0 option Hw0.
  destruct (String.eqb option "1").
  { apply round_of. apply (keeps_order _ _ _ deposit_spec). auto. }
  destruct (String.eqb option "2").
  { apply round_of. apply (keeps_order _ _ _ withdraw_spec). auto. }
  destruct (String.eqb option "3").
  { apply round_of. apply keeps_objects, display_statement_spec. }
  destruct (String.eqb option "6").
  { apply round_of. apply (keeps_order _ _ _ create_customer_spec). auto. }
  destruct (String.eqb option "4").
  { apply round_of. apply numbered_create_account_spec. }
  destruct (String.eqb option "5").
  { apply round_of. apply keeps_objects, list_accounts_spec. }
  destruct (String.eqb option "7").
  { apply spec_ret. intros s (Hw & Hs & _). now apply (well_formed_same s0). }
  prints. intros s1 [] (Hw & Hs01 & Hin).
  apply spec_ret. intros s2 (_ & Hs12 & Hin2).
  split; [objects |]. rewrite Hin2, Hin. simpl. lia.
Qed.

Lemma main_spec :
  spec Menu.main well_formed (fun _ _ s' => well_formed s') only_eof.
Proof.
  eapply spec_conseq.
  - apply (spec_loop Menu.main_round well_formed
             (fun _ s' => well_formed s') (only_eof (Menu.start []))).
    eapply spec_conseq; [apply main_round_spec | auto | auto |].
    cbv beta. intros s e s' _ He. exact He.
  - auto.
  - cbv beta. intros s a s' _ Hw _. exact Hw.
  - cbv beta. intros s e s' _ He. exact He.
Qed.

(** However [main] ends, the session is in order. *)
Lemma main_in_order (lines : list string) :
  well_formed (snd (Menu.main (Menu.start lines))) /\
  (fst (Menu.main (Menu.start lines)) = Returned tt \/
   fst (Menu.main (Menu.start lines)) = Raise EOFError).
Proof.
  assert (Hstart : well_formed (Menu.start lines)).
  { split; [constructor |]. split; intros [| k] x Hx; discriminate Hx. }
  pose proof (main_spec (Menu.start lines) Hstart) as Hm.
  destruct (Menu.main (Menu.start lines)) as [[[] | e |] s']; simpl.
  - destruct Hm. auto.
  - destruct Hm as [-> Hw]. auto.
  - destruct Hm.
Qed.

(** ** What [main] guarantees *)

Lemma Forall_enumerate_from {A} (P : nat -> A -> Prop) (l : list A) :
  forall k,
    (forall i x, nth_error l i = Some x -> P (k + i)%nat x) ->
    Forall (fun p => P (fst p) (snd p)) (combine (seq k (List.length l)) l).
Proof.
  induction l as [| y rest IH]; intros k Hl; simpl; constructor.
  - simpl. specialize (Hl 0%nat y eq_refl). now rewrite Nat.add_0_r in Hl.
  - apply IH. intros i x Hi. specialize (Hl (S i) x Hi).
    now rewrite Nat.add_succ_r in Hl.
Qed.

Lemma Forall_enumerate {A} (P : nat -> A -> Prop) (l : list A) :
  (forall i x, nth_error l i = Some x -> P i x) ->
  Forall (fun p => P (fst p) (snd p)) (enumerate l).
Proof. intros Hl. apply Forall_enumerate_from. exact Hl. Qed.

Lemma Forall_nth_error {A} (P : A -> Prop) (l : list A) :
  (forall i x, nth_error l i = Some x -> P x) -> Forall P l.
Proof.
  intros Hl. apply Forall_forall. intros x Hx.
  apply In_nth_error in Hx. destruct Hx as [i Hi]. eauto.
Qed.

(** X9: on any input [main] comes to an end: it returns after the choice
    "7" or raises [EOFError] when the input runs out; it never raises
    another exception (an index out of range, an uncaught
    [InvalidDateException]) and never loops for ever. *)
Theorem main_returns_or_runs_out_of_input (lines : list string) :
  fst (Menu.main (Menu.start lines)) = Returned tt \/
  fst (Menu.main (Menu.start lines)) = Raise EOFError.
Proof. apply main_in_order. Qed.

(** X10: however the menu is used, the accounts of the session are
    numbered 1, 2, 3, ... in the order of their creation, so that no two
    accounts have the same number; each is a checking account of branch
    "0001" with ceiling 500 and at most 3 withdrawals. *)
Theorem session_accounts_are_numbered (lines : list string) :
  let s := snd (Menu.main (Menu.start lines)) in
  Forall (fun p => number (as_account (snd p)) = Z.of_nat (fst p) + 1 /\
                   branch (as_account (snd p)) = "0001" /\
                   limits (snd p) = Some (500, 3))
         (enumerate (main_accounts s)) /\
  NoDup (map (fun o => number (as_account o)) (main_accounts s)).
Proof.
  cbv zeta. destruct (main_in_order lines) as [(_ & _ & Has) _].
  set (s := snd (Menu.main (Menu.start lines))) in *. split.
  - apply (Forall_enumerate
             (fun i o => number (as_account o) = Z.of_nat i + 1 /\
                         branch (as_account o) = "0001" /\
                         limits o = Some (500, 3))).
    intros i o Hi. destruct (Has i o Hi) as (Hn & Hb & (Hl & _) & _). auto.
  - apply NoDup_nth_error. intros i j Hi Hij.
    rewrite length_map in Hi. rewrite !nth_error_map in Hij.
    destruct (nth_error (main_accounts s) i) as [oi |] eqn:Hoi;
      [| apply nth_error_None in Hoi; lia].
    destruct (nth_error (main_accounts s) j) as [oj |] eqn:Hoj;
      [| discriminate].
    simpl in Hij. injection Hij as Hij.
    destruct (Has i oi Hoi) as (Hni & _). destruct (Has j oj Hoj) as (Hnj & _).
    lia.
Qed.

(** X11: however the menu is used, no two customers of the session have
    the same SSN, and every customer has a date of birth that
    [validate_date] accepts. *)
Theorem session_customers_are_distinct (lines : list string) :
  let s := snd (Menu.main (Menu.start lines)) in
  NoDup (map ssn (main_customers s)) /\
  Forall (fun c => validate_date (date_of_birth c) = inr tt)
         (main_customers s).
Proof.
  cbv zeta. destruct (main_in_order lines) as [(Hnd & Hcs & _) _].
  split; [exact Hnd |].
  apply Forall_nth_error. intros j c Hj. now destruct (Hcs j c Hj).
Qed.


(** X13: however the menu is used, customers and accounts refer to each
    other consistently: every account that a customer lists exists and
    names that customer as its holder, and every account is listed by its
    holder. *)
Theorem session_ownership_is_consistent (lines : list string) :
  let s := snd (Menu.main (Menu.start lines)) in
  Forall (fun p =>
            Forall (fun r => exists o,
                        nth_error (main_accounts s) r = Some o /\
                        customer (as_account o) = fst p)
                   (accounts (snd p)))
         (enumerate (main_customers s)) /\
  Forall (fun p => exists c,
              nth_error (main_customers s) (customer (as_account (snd p)))
                = Some c /\
              In (fst p) (accounts c))
         (enumerate (main_accounts s)).
Proof.
  cbv zeta. destruct (main_in_order lines) as [(_ & Hcs & Has) _].
  set (s := snd (Menu.main (Menu.start lines))) in *. split.
  - apply (Forall_enumerate
             (fun j c => Forall (fun r => exists o,
                                   nth_error (main_accounts s) r = Some o /\
                                   customer (as_account o) = j)
                                (accounts c))).
    intros j c Hj. apply Forall_forall. now apply (Hcs j c Hj).
  - apply (Forall_enumerate
             (fun i o => exists c,
                  nth_error (main_customers s) (customer (as_account o))
                    = Some c /\ In i (accounts c))).
    intros i o Hi. now destruct (Has i o Hi) as (_ & _ & _ & _ & Hc).
Qed.

(** ** What each command guarantees *)



(** *** The loops, run line by line *)

Lemma input_bind {A} (prompt : string) (k : string -> Cli A) (s : Session) :
  (text <~ input prompt ;; k text) s =
  match stdin s with
  | [] => (Raise EOFError, write [prompt] s)
  | line :: rest =>
      k line {| main_customers := main_customers s;
                main_accounts := main_accounts s;
                stdin := rest;
                stdout := (stdout s ++ [prompt])%list;
                applied := applied s |}
  end.
Proof. unfold cli_bind, input. destruct (stdin s); reflexivity. Qed.



Lemma date_loop_run (lines : list string) :
  forall (s : Session) (fuel : nat),
    stdin s = lines -> (List.length lines < fuel)%nat ->
    exists s',
      same_objects s s' /\
      match first_date lines with
      | Some (date, rest) =>
          while_true fuel
            (date_of_birth <~ input "Enter the date of birth (dd-mm-yyyy): " ;;
             match validate_date date_of_birth with
             | inr _ => cli_ret (Some date_of_birth)
             | inl (InvalidDateException e) =>
                 cli_print (nl ++ "@@@ " ++ e ++ " @@@") ;;>
                 cli_ret None
             end) s = (Returned date, s') /\
          stdin s' = rest /\ validate_date date = inr tt
      | None =>
          while_true fuel
            (date_of_birth <~ input "Enter the date of birth (dd-mm-yyyy): " ;;
             match validate_date date_of_birth with
             | inr _ => cli_ret (Some date_of_birth)
             | inl (InvalidDateException e) =>
                 cli_print (nl ++ "@@@ " ++ e ++ " @@@") ;;>
                 cli_ret None
             end) s = (Raise EOFError, s')
      end.
Proof.
  set (body := date_of_birth <~ input _ ;; _).
  assert (Hbody : forall s, body s = _) by (intros s; apply input_bind).
  induction lines as [| text rest IH]; intros s fuel Hin Hfuel;
    (destruct fuel as [| fuel]; [simpl in Hfuel; lia |]);
    cbn [while_true first_date]; rewrite Hbody, Hin.
  - eexists. split; [| reflexivity]. split; reflexivity.
  - destruct (validate_date text) as [[e] | []] eqn:Hdate.
    + assert (Hlen : (List.length rest < fuel)%nat) by (simpl in Hfuel; lia).
      exact (IH (write [nl ++ "@@@ " ++ e ++ " @@@"]
                   {| main_customers := main_customers s;
                      main_accounts := main_accounts s;
                      stdin := rest;
                      stdout :=
                        (stdout s ++
                         ["Enter the date of birth (dd-mm-yyyy): "])%list;
                      applied := applied s |}) fuel eq_refl Hlen).
    + eexists. split; [| split; [reflexivity | split; [reflexivity | exact Hdate]]].
      split; reflexivity.
Qed.

Lemma create_customer_run (s : Session) : creates_customer s.
Proof.
  unfold creates_customer, out_of_input.
  set (ended := Menu.create_customer s).
  assert (Hrun : ended = _)
    by (unfold ended, Menu.create_customer; apply input_bind).
  clearbody ended.
  destruct (stdin s) as [| ssn' rest] eqn:Hin.
  { subst ended. split; [reflexivity | split; reflexivity]. }
  unfold cli_bind at 1, session in Hrun. cbv beta iota in Hrun.
  cbn [main_customers] in Hrun.
  destruct (Menu.filter_customer ssn' (main_customers s)) as [found |].
  { subst ended. repeat split. }
  rewrite input_bind in Hrun. cbn [stdin] in Hrun.
  destruct rest as [| name' rest].
  { subst ended. split; [reflexivity | split; reflexivity]. }
  cbv beta in Hrun. unfold cli_bind at 1, loop in Hrun.
  match type of Hrun with
  | context [while_true ?fuel ?body ?s1] =>
      destruct (date_loop_run rest s1 fuel eq_refl (Nat.lt_succ_diag_r _))
        as (s2 & [Hc2 Ha2] & Hloop)
  end.
  cbn [stdin] in Hloop. cbn [main_customers main_accounts] in Hc2, Ha2.
  destruct (first_date rest) as [[date rest'] |].
  - destruct Hloop as (Hloop & Hrest & Hdate).
    cbn [stdin] in Hrun. rewrite Hloop in Hrun.
    rewrite input_bind, Hrest in Hrun.
    destruct rest' as [| address' rest'].
    + subst ended. split; [reflexivity |]. split; simpl; assumption.
    + unfold IndividualCustomer_init in Hrun. rewrite Hdate in Hrun.
      subst ended. unfold cli_bind, cli_print. simpl.
      repeat split; congruence.
  - cbn [stdin] in Hrun. rewrite Hloop in Hrun.
    subst ended. split; [reflexivity |]. split; simpl; assumption.
Qed.

Lemma create_account_run (n : Z) (s : Session) : creates_account n s.
Proof.
  unfold creates_account, out_of_input.
  set (ended := Menu.create_account n s).
  assert (Hrun : ended = _)
    by (unfold ended, Menu.create_account; apply input_bind).
  clearbody ended.
  destruct (stdin s) as [| ssn' rest] eqn:Hin.
  { subst ended. split; [reflexivity | split; reflexivity]. }
  unfold cli_bind at 1, session in Hrun. cbv beta iota in Hrun.
  cbn [main_customers] in Hrun.
  destruct (Menu.filter_customer ssn' (main_customers s)) as [[j c] |];
    subst ended; repeat split.
Qed.

Lemma spec_keeps_order {A} (m : Cli A) (Q : Session -> A -> Session -> Prop)
  (s : Session) :
  spec m well_formed (fun s a s' => Q s a s' /\ well_formed s') only_eof ->
  well_formed s -> well_formed (snd (m s)).
Proof.
  intros Hm Hs. specialize (Hm s Hs).
  destruct (m s) as [[a | e |] s']; simpl;
    [now destruct Hm as [[_ Hw] _] | now destruct Hm | contradiction].
Qed.



(** X16: [create_customer] reads the SSN; when a customer already has it,
    it returns with the objects as they were; otherwise it reads a name,
    dates until [validate_date] accepts one, and an address, and appends
    the customer made of them, who has no account; the accounts are left
    as they are; when the lines run out before that, it ends with
    [EOFError] and the objects as they were.  From a session in order the
    session is still in order. *)
Theorem create_customer_adds_a_new_ssn (s : Session) :
  creates_customer s /\
  (well_formed s -> well_formed (snd (Menu.create_customer s))).
Proof.
  split; [apply create_customer_run |].
  exact (spec_keeps_order _ _ s create_customer_spec).
Qed.

(** X17: [create_account] reads the SSN; when no customer has it, it
    returns with the objects as they were; otherwise it appends one
    checking account with the number it was given and the defaults, held
    by the first customer with the SSN, who lists it last.  Called as
    [main] calls it, with the number of accounts plus one, from a session
    in order, it leaves the session in order. *)
Theorem create_account_adds_the_next_number (s : Session) (n : Z) :
  creates_account n s /\
  (well_formed s ->
   well_formed
     (snd (Menu.create_account
             (Z.of_nat (List.length (main_accounts s)) + 1) s))).
Proof.
  split; [apply create_account_run |].
  intros Hs.
  pose proof (create_account_spec
                (Z.of_nat (List.length (main_accounts s)) + 1) s
                (conj Hs eq_refl)) as Hc.
  destruct (Menu.create_account _ s) as [[a | e |] s']; simpl;
    [now destruct Hc as [[_ Hw] _] | now destruct Hc | contradiction].
Qed.



End MenuProperties.

(** ** The sample session *)

Lemma well_formed_retype (lines : list string) (s : Session) :
  well_formed s -> well_formed (retype lines s).
Proof. apply well_formed_same. split; reflexivity. Qed.

Lemma demo_in_order (lines : list string) :
  well_formed (retype lines demo_session).
Proof.
  apply well_formed_retype. unfold demo_session.
  exact (proj1 (@main_in_order sample_python demo_lines)).
Qed.

Example demo_session_objects :
  List.length (main_customers demo_session) = 1%nat /\
  map accounts (main_customers demo_session) = [[0; 1]%nat] /\
  map (fun o => (number (as_account o), balance (as_account o),
                 customer (as_account o)))
      (main_accounts demo_session) = [(1, 100, 0%nat); (2, 0, 0%nat)] /\
  map (fun o => transactions (history (as_account o)))
      (main_accounts demo_session) =
    [[ {| e_type := "Deposit"; e_amount := 100;
          e_date := "04-11-2026 10:00:00" |} ]; []] /\
  stdin demo_session = [] /\
  fst (@Menu.main sample_python (Menu.start demo_lines)) = Returned tt.
Proof. vm_compute. repeat split. Qed.



Lemma create_customer_adds_a_new_ssn_witness :
  let s := retype ["222"; "Bia"; "31-02-2020"; "29-02-2020"; "Rua B, 2"]
                  demo_session in
  creates_customer s /\ well_formed (snd (Menu.create_customer s)).
Proof.
  intros s.
  exact (conj (proj1 (create_customer_adds_a_new_ssn s))
              (proj2 (create_customer_adds_a_new_ssn s) (demo_in_order _))).
Defined.

Lemma create_account_adds_the_next_number_witness :
  let s := retype ["111"] demo_session in
  creates_account 3 s /\ well_formed (snd (Menu.create_account 3 s)).
Proof.
  intros s.
  exact (conj (proj1 (create_account_adds_the_next_number s 3))
              (proj2 (create_account_adds_the_next_number s 3)
                     (demo_in_order _))).
Defined.



Lemma dd_mm_yyyy_is_accepted_witness : validate_date "29-02-2024" = inr tt.
Proof. apply dd_mm_yyyy_is_accepted. reflexivity. Defined.

(** The commands on the sample session: a deposit on the second account
    after a refused amount of 0; a new customer after an impossible date. *)
Example demo_commands :
  let d := snd (@Menu.deposit sample_python
                  (retype ["111"; "2"; "0"; "25"] demo_session)) in
  let c := snd (Menu.create_customer
                  (retype ["222"; "Bia"; "31-02-2020"; "29-02-2020"; "Rua B, 2"]
                          demo_session)) in
  map (fun o => balance (as_account o)) (main_accounts d) = [100; 25] /\
  existsb
    (String.eqb
       (nl ++ "@@@ Operation failed! The deposit amount must be positive. @@@"))
    (stdout d) = true /\
  map (fun x => (ssn x, date_of_birth x)) (main_customers c) =
    [("111", "01-01-1990"); ("222", "29-02-2020")] /\
  existsb
    (String.eqb (nl ++ "@@@ Invalid date. Use the format dd-mm-yyyy. @@@"))
    (stdout c) = true.
Proof. vm_compute. repeat split. Qed.
